(** * Column classifier and field parsers: a shallow embedding

    The development follows the three Python sources:
    - [predict.py]: resource-driven scorers and the label policy of [main];
    - [parser.py]: the company-name and phone splitters and the
      best-column parse of [main];
    - [mcp_server/server.py]: the request dispatcher and its line loop.

    Modelling conventions.
    - A Python [str] is a Rocq [string]; a character is a code point in
      the range 0..255, on which [str.isspace], [str.lower] and the
      regular-expression classes [\d] and [\w] are tabulated below.
    - A score is the exact rational [hits / total].  Python's [/] on two
      integers returns the correctly rounded double of that rational, and
      rounding is monotone, so every comparison the code makes (against
      the literals 0.8, 0.3 and 0, and between two scores) has the same
      outcome on the rationals as long as a column has fewer than 2^26
      cells.
    - A function that can raise returns [result]; [Raise] carries the
      exception class and its message.
    - A data frame is the ordered list of its named columns; a cell is
      the string the code sees for it ([str(v)], [astype(str)]). *)

From Stdlib Require Import Ascii String QArith Lqa Floats.
From stdpp Require Import gmap strings list sorting.

Open Scope string_scope.
Open Scope nat_scope.
Open Scope list_scope.

(* ================================================================== *)
(** * Python builtins the sources rely on *)
(* ================================================================== *)

Module Py.

(** ** Exceptions *)

Inductive exn_class :=
| ZeroDivisionError | ValueError | TypeError | AttributeError | KeyError
| RuntimeError | JSONDecodeError | OSError
| SystemExit | KeyboardInterrupt.

(** [issubclass(cls, Exception)]: [SystemExit] and [KeyboardInterrupt]
    derive from [BaseException] only. *)
Definition is_Exception (k : exn_class) : bool :=
  match k with
  | SystemExit | KeyboardInterrupt => false
  | _ => true
  end.

Record exn := Exn { exn_kind : exn_class; exn_msg : string }.

Inductive result (A : Type) :=
| Ok (a : A)
| Raise (e : exn).
Arguments Ok {A} a.
Arguments Raise {A} e.

(** Sequencing: the first exception raised propagates. *)
#[export] Instance result_bind : MBind result := λ A B k m,
  match m with
  | Ok a => k a
  | Raise e => Raise e
  end.

#[export] Instance result_ret : MRet result := λ A a, Ok a.

(** ** Characters *)

Definition code (c : ascii) : N := N_of_ascii c.

Definition between (lo hi n : N) : bool := (lo <=? n)%N && (n <=? hi)%N.

(** [str.isspace] on code points below 256. *)
Definition isspace (c : ascii) : bool :=
  let n := code c in
  between 9 13 n || between 28 32 n || (n =? 133)%N || (n =? 160)%N.

(** The class [\d] of [re] on code points below 256. *)
Definition isdigit (c : ascii) : bool := between 48 57 (code c).

(** The class [\w] of [re] on code points below 256. *)
Definition isword (c : ascii) : bool :=
  let n := code c in
  between 48 57 n || between 65 90 n || (n =? 95)%N || between 97 122 n
  || (n =? 170)%N || (n =? 178)%N || (n =? 179)%N || (n =? 181)%N
  || (n =? 185)%N || (n =? 186)%N || between 188 190 n
  || between 192 214 n || between 216 246 n || between 248 255 n.

Definition isupper (c : ascii) : bool :=
  let n := code c in
  between 65 90 n || between 192 214 n || between 216 222 n.

Definition lower_char (c : ascii) : ascii :=
  if isupper c then ascii_of_N (code c + 32) else c.

(** ** Strings *)

Fixpoint str_map (f : ascii → ascii) (s : string) : string :=
  match s with
  | EmptyString => EmptyString
  | String c t => String (f c) (str_map f t)
  end.

Fixpoint str_filter (p : ascii → bool) (s : string) : string :=
  match s with
  | EmptyString => EmptyString
  | String c t => if p c then String c (str_filter p t) else str_filter p t
  end.

(** [s[:n]] and [s[n:]] for [n >= 0]. *)
Fixpoint str_take (n : nat) (s : string) : string :=
  match n, s with
  | S n', String c t => String c (str_take n' t)
  | _, _ => EmptyString
  end.

Fixpoint str_drop (n : nat) (s : string) : string :=
  match n, s with
  | S n', String _ t => str_drop n' t
  | _, _ => s
  end.

Fixpoint lstrip_by (p : ascii → bool) (s : string) : string :=
  match s with
  | EmptyString => EmptyString
  | String c t => if p c then lstrip_by p t else s
  end.

Fixpoint rstrip_by (p : ascii → bool) (s : string) : string :=
  match s with
  | EmptyString => EmptyString
  | String c t =>
      match rstrip_by p t with
      | EmptyString => if p c then EmptyString else String c EmptyString
      | t' => String c t'
      end
  end.

Definition strip_by (p : ascii → bool) (s : string) : string :=
  rstrip_by p (lstrip_by p s).

Fixpoint str_mem (c : ascii) (chars : string) : bool :=
  match chars with
  | EmptyString => false
  | String d t => if Ascii.eqb c d then true else str_mem c t
  end.

(** [s.strip()] *)
Definition strip (s : string) : string := strip_by isspace s.

(** [s.strip(chars)] *)
Definition strip_chars (chars s : string) : string :=
  strip_by (λ c, str_mem c chars) s.

(** [s.lower()] *)
Definition lower (s : string) : string := str_map lower_char s.

(** [s.startswith(p)] *)
Fixpoint startswith (p s : string) : bool :=
  match p with
  | EmptyString => true
  | String a p' =>
      match s with
      | EmptyString => false
      | String c s' => if Ascii.eqb a c then startswith p' s' else false
      end
  end.

(** [k in s] for two strings. *)
Fixpoint contains (k s : string) : bool :=
  startswith k s ||
  match s with
  | EmptyString => false
  | String _ t => contains k t
  end.

(** [not s] for a string. *)
Definition is_empty (s : string) : bool :=
  match s with EmptyString => true | _ => false end.

(** ** Numbers *)

(** [a / b] on two non-negative integers. *)
Definition truediv (a b : nat) : result Q :=
  match b with
  | O => Raise (Exn ZeroDivisionError "division by zero")
  | S _ => Ok (Z.of_nat a # Pos.of_nat b)
  end.

Definition Qge_bool (x y : Q) : bool := Qle_bool y x.
Definition Qlt_bool (x y : Q) : bool := negb (Qle_bool y x).
Definition Qgt_bool (x y : Q) : bool := negb (Qle_bool x y).

(** ** [max(iterable, key=...)]: the first item whose key is largest;
    [ValueError] on an empty iterable. *)
Fixpoint max_loop {A} (key : A → Q) (best : A) (l : list A) : A :=
  match l with
  | [] => best
  | x :: t => max_loop key (if Qgt_bool (key x) (key best) then x else best) t
  end.

Definition max_key {A} (key : A → Q) (l : list A) : result A :=
  match l with
  | [] => Raise (Exn ValueError "max() arg is an empty sequence")
  | x :: t => Ok (max_loop key x t)
  end.

(** ** [sum(1 for v in values if p(v))] *)
Fixpoint count_if {A} (p : A → bool) (values : list A) : nat :=
  match values with
  | [] => 0
  | v :: t => (if p v then 1 else 0) + count_if p t
  end.

(** ** The two regular expressions of the sources

    Both patterns are [\b] + [re.escape(suf)] + [\b], followed in
    [parser.py] by an optional period that can always match empty.
    [re.escape] makes [suf] a literal, so a match at a position needs a
    word boundary there, the characters of [suf], and a word boundary
    after them.  [re.search] scans the positions from left to right. *)

Definition opt_isword (c : option ascii) : bool :=
  match c with Some c => isword c | None => false end.

Definition str_head (s : string) : option ascii :=
  match s with EmptyString => None | String c _ => Some c end.

(** [\b] between the character [prev] and the rest [s]. *)
Definition boundary (prev : option ascii) (s : string) : bool :=
  xorb (opt_isword prev) (opt_isword (str_head s)).

(** Consume the literal; on success, check [\b] after it. *)
Fixpoint literal_then_boundary (lit : string) (prev : option ascii) (s : string) : bool :=
  match lit with
  | EmptyString => boundary prev s
  | String a lit' =>
      match s with
      | EmptyString => false
      | String c t =>
          if Ascii.eqb a c then literal_then_boundary lit' (Some c) t else false
      end
  end.

Definition match_here (suf : string) (prev : option ascii) (s : string) : bool :=
  boundary prev s && literal_then_boundary suf prev s.

Fixpoint search_from (suf : string) (prev : option ascii) (s : string) (i : nat)
  : option nat :=
  if match_here suf prev s then Some i
  else match s with
       | EmptyString => None
       | String c t => search_from suf (Some c) t (S i)
       end.

(** [re.search(r"\b" + re.escape(suf) + r"\b", s)]: the start of the
    leftmost match, if any. *)
Definition re_search_word (suf s : string) : option nat :=
  search_from suf None s 0.

End Py.

(* ================================================================== *)
(** * The part of pandas the sources use *)
(* ================================================================== *)

Module Pandas.

(** A column is its name and its cells; a frame lists its columns in
    order.  In a frame read from a CSV file the column names are distinct
    and the columns equally long. *)
Abbreviation Series := (list string).
Abbreviation DataFrame := (list (string * list string)).

(** [df.columns] *)
Definition columns (df : DataFrame) : list string := df.*1.

(** [len(df.index)] *)
Definition n_rows (df : DataFrame) : nat :=
  match df with
  | [] => 0
  | (_, cells) :: _ => length cells
  end.

(** [df.empty]: some axis has length zero. *)
Definition empty (df : DataFrame) : bool :=
  (length df =? 0)%nat || (n_rows df =? 0)%nat.

(** [df[name]] *)
Fixpoint get_column (df : DataFrame) (name : string) : option Series :=
  match df with
  | [] => None
  | (n, cells) :: rest =>
      if String.eqb n name then Some cells else get_column rest name
  end.

(** [df[name] = cells]: an existing column of that name gets the new
    cells where it stands; otherwise the column is added at the end. *)
Fixpoint set_column (df : DataFrame) (name : string) (cells : Series) : DataFrame :=
  match df with
  | [] => [(name, cells)]
  | (n, old) :: rest =>
      if String.eqb n name then (n, cells) :: rest
      else (n, old) :: set_column rest name cells
  end.

End Pandas.

(* ================================================================== *)
(** * predict.py *)
(* ================================================================== *)

Module Predict.
Import Py Pandas.

Inductive label := PhoneNumber | Date | Country | CompanyName | Other.

#[export] Instance label_eq_dec : EqDecision label.
Proof. solve_decision. Defined.

Section WithDateutil.

(** [dateutil.parser.parse(s, dayfirst=True, fuzzy=False)] returns
    without raising. *)
Variable dateutil_parses : string → bool.

Definition is_parsable_date (s : string) : bool :=
  let s := strip s in
  if is_empty s then false
  else dateutil_parses s.

Definition looks_like_phone (s : string) : bool :=
  let s := strip s in
  if is_empty s then false
  else
    let digits := str_filter isdigit s in
    (7 <=? String.length digits)%nat && (String.length digits <=? 15)%nat.

Definition keywords : list string :=
  ["ltd"; "limited"; "inc"; "corp"; "company"; "co."; "gmbh"; "bank"; "plc"].

Definition looks_like_company (s : string) (legal_suffixes : list string) : bool :=
  let s := strip s in
  if is_empty s then false
  else
    let low := lower s in
    if existsb (λ suf, bool_decide (is_Some (re_search_word suf low))) legal_suffixes
    then true
    else existsb (λ k, contains k low) keywords.

Definition score_phone (values : list string) : result Q :=
  let phoney := count_if looks_like_phone values in
  truediv phoney (max (length values) 1).

Definition score_date (values : list string) : result Q :=
  let parsable := count_if is_parsable_date values in
  truediv parsable (max (length values) 1).

(** One round of the loop of [score_country] on the pair
    [(hits, total)].  On a string, [v or ""] is [v]. *)
Definition country_step (countries_set : gset string)
    (acc : nat * nat) (v : string) : nat * nat :=
  let v := lower (strip v) in
  if is_empty v then acc
  else
    let total := S acc.2 in
    if bool_decide (v ∈ countries_set) then (S acc.1, total)
    else (acc.1, total).

Definition score_country (values : list string) (countries_set : gset string)
  : result Q :=
  if bool_decide (countries_set = ∅) then Ok 0%Q
  else
    let '(hits, total) := foldl (country_step countries_set) (0, 0) values in
    if (total =? 0)%nat then Ok 0%Q
    else truediv hits total.

Definition score_company (values : list string) (legal_suffixes : list string)
  : result Q :=
  let positive := count_if (λ v, looks_like_company v legal_suffixes) values in
  truediv positive (max (length values) 1).

(** The dict [scores] of [main], as its items in insertion order. *)
Definition compute_scores (values : list string) (countries : gset string)
    (legal_suffixes : list string) : result (list (label * Q)) :=
  sp ← score_phone values;
  sd ← score_date values;
  sc ← score_country values countries;
  sco ← score_company values legal_suffixes;
  mret [(PhoneNumber, sp); (Date, sd); (Country, sc); (CompanyName, sco)].

(** [scores[k]] *)
Fixpoint scores_get (scores : list (label * Q)) (k : label) : result Q :=
  match scores with
  | [] => Raise (Exn KeyError "")
  | (k', v) :: rest => if decide (k' = k) then Ok v else scores_get rest k
  end.

(** Lines 151-163 of [main].  Iterating the dict yields its keys in
    insertion order and [scores.get] reads the value stored with a
    key, so [max(scores, key=scores.get)] is the key of the first
    item whose value is largest. *)
Definition pick_label (scores : list (label * Q)) : result label :=
  phone ← scores_get scores PhoneNumber;
  if Qge_bool phone (8 # 10) then mret PhoneNumber
  else
    date ← scores_get scores Date;
    if Qge_bool date (8 # 10) then mret Date
    else
      country ← scores_get scores Country;
      if Qge_bool country (8 # 10) then mret Country
      else
        best ← max_key snd scores;
        best_score ← scores_get scores best.1;
        if Qlt_bool best_score (3 # 10) then mret Other
        else mret best.1.

(** Lines 145-163 of [main]: the label printed for a column. *)
Definition classify (values : list string) (countries : gset string)
    (legal_suffixes : list string) : result label :=
  scores ← compute_scores values countries legal_suffixes;
  pick_label scores.

(** [main]: [input] is the path given on the command line, [df] the
    frame read from it. *)
Definition main (input : string) (df : DataFrame) (column : string)
    (countries : gset string) (legal_suffixes : list string) : result label :=
  match get_column df column with
  | None =>
      Raise (Exn SystemExit ("Column '" +:+ column +:+ "' not found in " +:+ input))
  | Some values => classify values countries legal_suffixes
  end.

End WithDateutil.

End Predict.

(* ================================================================== *)
(** * parser.py *)
(* ================================================================== *)

Module Parser.
Import Py Pandas Predict.

(** The loop over [suffixes] of [parse_company_name]; [s] is the
    stripped input and [low] its lowercase copy. *)
Fixpoint split_at_suffix (s low : string) (suffixes : list string) : string * string :=
  match suffixes with
  | [] => (s, "")
  | suf :: rest =>
      match re_search_word suf low with
      | Some start =>
          (strip_chars " ,.-" (str_take start s),
           strip_chars " ,.-" (str_drop start s))
      | None => split_at_suffix s low rest
      end
  end.

Definition parse_company_name (raw : string) (suffixes : list string) : string * string :=
  let s := strip raw in
  if is_empty s then ("", "")
  else split_at_suffix s (lower s) suffixes.

Definition DIAL_CODE_TO_COUNTRY : gmap string string :=
  {[ "1" := "US"; "44" := "UK"; "91" := "India" ]}.

(** The loop [for length in (3, 2, 1)] of [parse_phone_number]; [None]
    when it ends without [break]. *)
Fixpoint try_dial_codes (digits : string) (lengths : list nat)
  : option (string * string) :=
  match lengths with
  | [] => None
  | len :: rest =>
      if (len <=? String.length digits)%nat then
        match DIAL_CODE_TO_COUNTRY !! str_take len digits with
        | Some country => Some (country, str_drop len digits)
        | None => try_dial_codes digits rest
        end
      else try_dial_codes digits rest
  end.

Definition parse_phone_number (raw : string) : string * string :=
  let s := strip raw in
  let digits := str_filter isdigit s in
  if is_empty digits then ("", "")
  else if startswith "+" s then
    match try_dial_codes digits [3; 2; 1] with
    | Some r => r
    | None => ("", digits)
    end
  else ("", digits).

(** The list [candidates] of [main]. *)
Fixpoint score_columns (df : DataFrame) (legal_suffixes : list string)
  : result (list (string * label * Q)) :=
  match df with
  | [] => mret []
  | (col, values) :: rest =>
      phone_score ← score_phone values;
      company_score ← score_company values legal_suffixes;
      others ← score_columns rest legal_suffixes;
      mret ((col, PhoneNumber, phone_score)
              :: (col, CompanyName, company_score) :: others)
  end.

(** What a run of [main] that reaches its end leaves behind: the frame
    written to [output.csv] and the choice it reports. *)
Record report := Report {
  out_df : DataFrame;
  best_col : string;
  best_type : label;
  best_score : Q
}.

Definition main (df : DataFrame) (legal_suffixes : list string) : result report :=
  if Pandas.empty df then Raise (Exn SystemExit "Input CSV is empty.")
  else
    candidates ← score_columns df legal_suffixes;
    best ← max_key snd candidates;
    let '(best_col, best_type, best_score) := best in
    let out_df := df in
    if bool_decide (best_type = PhoneNumber) && Qgt_bool best_score 0 then
      match get_column out_df best_col with
      | None => Raise (Exn KeyError best_col)
      | Some cells =>
          let parsed := parse_phone_number <$> cells in
          let out_df := set_column out_df "Country" (parsed.*1) in
          let out_df := set_column out_df "Number" (parsed.*2) in
          mret (Report out_df best_col best_type best_score)
      end
    else if bool_decide (best_type = CompanyName) && Qgt_bool best_score 0 then
      match get_column out_df best_col with
      | None => Raise (Exn KeyError best_col)
      | Some cells =>
          let parsed := (λ v, parse_company_name v legal_suffixes) <$> cells in
          let out_df := set_column out_df "Name" (parsed.*1) in
          let out_df := set_column out_df "Legal" (parsed.*2) in
          mret (Report out_df best_col best_type best_score)
      end
    else mret (Report out_df best_col best_type best_score).

End Parser.

(* ================================================================== *)
(** * mcp_server/server.py *)
(* ================================================================== *)

Module Server.
Import Py.

(** The values [json.loads] builds and [json.dumps] prints.  A dict is
    the list of its items; its keys are distinct strings. *)
#[warnings="-register-all"]
Inductive pyval :=
| PNone
| PBool (b : bool)
| PInt (z : Z)
| PFloat (f : float)
| PStr (s : string)
| PList (items : list pyval)
| PDict (items : list (string * pyval)).

(** [bool(v)] *)
Definition truthy (v : pyval) : bool :=
  match v with
  | PNone => false
  | PBool b => b
  | PInt z => negb (z =? 0)%Z
  | PFloat f => negb (PrimFloat.eqb f 0%float)
  | PStr s => negb (is_empty s)
  | PList items => negb (length items =? 0)%nat
  | PDict items => negb (length items =? 0)%nat
  end.

Definition type_name (v : pyval) : string :=
  match v with
  | PNone => "NoneType"
  | PBool _ => "bool"
  | PInt _ => "int"
  | PFloat _ => "float"
  | PStr _ => "str"
  | PList _ => "list"
  | PDict _ => "dict"
  end.

(** [d[k]] on the items of a dict, when [k] is a key. *)
Fixpoint items_get {V} (items : list (string * V)) (k : string) : option V :=
  match items with
  | [] => None
  | (k', v) :: rest => if String.eqb k' k then Some v else items_get rest k
  end.

(** [v.get(k, default)]: only a dict has the method. *)
Definition get (v : pyval) (k : string) (dflt : pyval) : result pyval :=
  match v with
  | PDict items => Ok (default dflt (items_get items k))
  | _ =>
      Raise (Exn AttributeError
               ("'" +:+ type_name v +:+ "' object has no attribute 'get'"))
  end.

(** [v in d] for a dict [d] with string keys: [v] is hashed first, and
    a list or a dict has no hash. *)
Definition lookup_key {V} (d : list (string * V)) (v : pyval) : result (option V) :=
  match v with
  | PList _ | PDict _ =>
      Raise (Exn TypeError ("unhashable type: '" +:+ type_name v +:+ "'"))
  | PStr s => Ok (items_get d s)
  | _ => Ok None
  end.

(** [v == s] for a string literal [s]. *)
Definition eq_str (v : pyval) (s : string) : bool :=
  match v with
  | PStr s' => String.eqb s' s
  | _ => false
  end.

(** What the server takes from its surroundings. *)
Record world := World {
  (** [str(v)], as an f-string formats a value *)
  py_str : pyval → string;
  (** [json.loads(line)] *)
  json_loads : string → result pyval;
  (** the [*.csv] files of [DATA_DIR], relative to [BASE_DIR]; none
      when the directory is missing *)
  data_csv_files : list string;
  (** [sys.executable] *)
  sys_executable : string;
  (** [str(BASE_DIR / p)] *)
  base_path : string → string;
  (** [subprocess.run(cmd, capture_output=True, text=True)]:
      the return code, stdout and stderr *)
  subprocess_run : list string → result (Z * string * string)
}.

Section Tools.
Variable w : world.

Definition tool_list_files (args : pyval) : result pyval :=
  mret (PDict [("files", PList (PStr <$> data_csv_files w))]).

(** [BASE_DIR / file_path]: [Path] divides by a string only. *)
Definition under_base (file_path : pyval) : result string :=
  match file_path with
  | PStr p => Ok (base_path w p)
  | _ =>
      Raise (Exn TypeError
               ("unsupported operand type(s) for /: 'PosixPath' and '"
                  +:+ type_name file_path +:+ "'"))
  end.

(** An element of [cmd] must be a string. *)
Definition cmd_arg (v : pyval) : result string :=
  match v with
  | PStr s => Ok s
  | _ =>
      Raise (Exn TypeError
               ("expected str, bytes or os.PathLike object, not "
                  +:+ type_name v))
  end.

Definition tool_column_prediction (args : pyval) : result pyval :=
  file_path ← get args "file_path" PNone;
  column_name ← get args "column_name" PNone;
  if negb (truthy file_path) || negb (truthy column_name) then
    Raise (Exn ValueError "Both 'file_path' and 'column_name' are required.")
  else
    abs_file ← under_base file_path;
    column ← cmd_arg column_name;
    let cmd := [sys_executable w; base_path w "predict.py";
                "--input"; abs_file; "--column"; column] in
    proc ← subprocess_run w cmd;
    let '(returncode, stdout, stderr) := proc in
    if negb (returncode =? 0)%Z then
      Raise (Exn RuntimeError ("predict.py failed: " +:+ strip stderr))
    else mret (PDict [("label", PStr (strip stdout))]).

Definition tool_parse_file (args : pyval) : result pyval :=
  file_path ← get args "file_path" PNone;
  if negb (truthy file_path) then
    Raise (Exn ValueError "'file_path' is required.")
  else
    abs_file ← under_base file_path;
    let cmd := [sys_executable w; base_path w "parser.py";
                "--input"; abs_file] in
    proc ← subprocess_run w cmd;
    let '(returncode, stdout, stderr) := proc in
    if negb (returncode =? 0)%Z then
      Raise (Exn RuntimeError ("parser.py failed: " +:+ strip stderr))
    else
      mret (PDict [("input", file_path);
                   ("output", PStr "output.csv");
                   ("log", PStr (strip stdout))]).

Definition TOOLS : list (string * (pyval → result pyval)) :=
  [("list_files", tool_list_files);
   ("column_prediction", tool_column_prediction);
   ("parse_file", tool_parse_file)].

Definition ok_response (req_id result : pyval) : pyval :=
  PDict [("id", req_id); ("ok", PBool true); ("result", result)].

Definition error_response (req_id : pyval) (error : string) : pyval :=
  PDict [("id", req_id); ("ok", PBool false); ("error", PStr error)].

Definition handle_request (req : pyval) : result pyval :=
  req_id ← get req "id" PNone;
  tool_name ← get req "tool" PNone;
  args ← get req "args" (PDict []);
  let args := if truthy args then args else PDict [] in
  if eq_str tool_name "list_tools" then
    mret (ok_response req_id (PDict [("tools", PList (PStr <$> TOOLS.*1))]))
  else
    found ← lookup_key TOOLS tool_name;
    match found with
    | None =>
        mret (error_response req_id ("Unknown tool: " +:+ py_str w tool_name))
    | Some tool_fn =>
        match tool_fn args with
        | Ok result => mret (ok_response req_id result)
        | Raise e =>
            if is_Exception (exn_kind e)
            then mret (error_response req_id (exn_msg e))
            else Raise e
        end
    end.

(** The loop of [main] over the lines of stdin: the responses printed
    in order, and the exception that ended the loop, if one did. *)
Fixpoint main (stdin : list string) : list pyval * option exn :=
  match stdin with
  | [] => ([], None)
  | line :: rest =>
      let line := strip line in
      if is_empty line then main rest
      else
        match json_loads w line with
        | Raise e =>
            match exn_kind e with
            | JSONDecodeError =>
                let resp := error_response PNone ("Invalid JSON: " +:+ exn_msg e) in
                let '(printed, crash) := main rest in
                (resp :: printed, crash)
            | _ => ([], Some e)
            end
        | Ok req =>
            match handle_request req with
            | Ok resp =>
                let '(printed, crash) := main rest in
                (resp :: printed, crash)
            | Raise e => ([], Some e)
            end
        end
  end.

End Tools.

End Server.

(* ================================================================== *)
(** * Vocabulary of the specification *)
(* ================================================================== *)

Module Spec.
Import Py Pandas Predict Parser.

(** What it is for [score] to be the fraction of the values that
    satisfy [pred]: on every list it returns (no exception) the number
    of values satisfying [pred] over [max(len, 1)], a number in [0, 1];
    it returns 0 on the empty list; and of two lists of one length the
    one with no fewer matching values scores no less. *)
Definition fraction_score (score : list string → result Q) (pred : string → bool)
  : Prop :=
  (∀ values, ∃ q,
      score values = Ok q
      ∧ q = (Z.of_nat (length (List.filter pred values))
               # Pos.of_nat (max (length values) 1))
      ∧ (0 <= q <= 1)%Q)
  ∧ score [] = Ok 0%Q
  ∧ (∀ values values' q q',
        length values = length values' →
        length (List.filter pred values) ≤ length (List.filter pred values') →
        score values = Ok q → score values' = Ok q' → (q <= q')%Q).

(** The values [score_country] considers: stripped, lowercased, and
    not empty; and those of them found in the country set. *)
Definition normalised (values : list string) : list string :=
  List.filter (λ v, negb (is_empty v)) ((λ v, lower (strip v)) <$> values).

Definition known (countries_set : gset string) (vs : list string) : list string :=
  List.filter (λ v, bool_decide (v ∈ countries_set)) vs.

(** The enumeration order of the four scored labels. *)
Definition rank (k : label) : nat :=
  match k with
  | PhoneNumber => 0
  | Date => 1
  | Country => 2
  | CompanyName => 3
  | Other => 4
  end.

(** The four scores of a column, by label. *)
Record column_scores := {
  phone : Q; date : Q; country : Q; company : Q
}.

Definition score_of (s : column_scores) (k : label) : Q :=
  match k with
  | PhoneNumber => phone s
  | Date => date s
  | Country => country s
  | CompanyName => company s
  | Other => 0
  end.

(** [k] is the scored label with the largest score, the earliest one in
    enumeration order among equals. *)
Definition first_argmax (s : column_scores) (k : label) : Prop :=
  k ≠ Other
  ∧ (∀ k', k' ≠ Other → (score_of s k' <= score_of s k)%Q)
  ∧ (∀ k', rank k' < rank k → (score_of s k' < score_of s k)%Q).

(** The label the classification policy prescribes for given scores. *)
Definition policy (s : column_scores) (l : label) : Prop :=
  ((8 # 10 <= phone s)%Q → l = PhoneNumber)
  ∧ ((phone s < 8 # 10)%Q → (8 # 10 <= date s)%Q → l = Date)
  ∧ ((phone s < 8 # 10)%Q → (date s < 8 # 10)%Q → (8 # 10 <= country s)%Q →
     l = Country)
  ∧ ((phone s < 8 # 10)%Q → (date s < 8 # 10)%Q → (country s < 8 # 10)%Q →
     ∃ k, first_argmax s k
          ∧ ((score_of s k < 3 # 10)%Q → l = Other)
          ∧ ((3 # 10 <= score_of s k)%Q → l = k)).

(** The digits of a string, in order. *)
Definition digits_of (s : string) : string := str_filter isdigit s.

(** The string, once stripped, starts with the international marker. *)
Definition has_plus (raw : string) : Prop :=
  ∃ rest, strip raw = String "+" rest.

(** The dial codes the specification lists. *)
Definition dial_codes : list (string * string) :=
  [("1", "US"); ("44", "UK"); ("91", "India")].

(** The first [len] digits are the dial code of [country]. *)
Definition dial_prefix (digits : string) (len : nat) (country : string) : Prop :=
  len ≤ String.length digits ∧ (str_take len digits, country) ∈ dial_codes.

(** There is a word boundary at position [i] of [s]: of the character
    before the position and the character at it, exactly one is a word
    character (a missing character is none). *)
Definition word_boundary_at (s : string) (i : nat) : Prop :=
  opt_isword (match i with 0 => None | S j => String.get j s end)
  ≠ opt_isword (String.get i s).

(** [suf] occurs in [s] at position [i] as a whole word. *)
Definition whole_word_at (suf s : string) (i : nat) : Prop :=
  str_take (String.length suf) (str_drop i s) = suf
  ∧ word_boundary_at s i
  ∧ word_boundary_at s (i + String.length suf).

(** [i] is the first position at which [suf] occurs as a whole word. *)
Definition first_whole_word (suf s : string) (i : nat) : Prop :=
  whole_word_at suf s i ∧ ∀ j, j < i → ¬ whole_word_at suf s j.

Definition no_whole_word (suf s : string) : Prop :=
  ∀ i, ¬ whole_word_at suf s i.

(** The names of the two columns derived for a winning type. *)
Definition derived_names (t : label) : list string :=
  match t with
  | PhoneNumber => ["Country"; "Number"]
  | CompanyName => ["Name"; "Legal"]
  | _ => []
  end.

(** The parse operation on [df] runs to its end and, when the winning
    score is positive, the frame it writes is [df], unchanged, followed
    by exactly two columns that bear, in order, the derived names of the
    winning type. *)
Definition appends_derived (df : DataFrame) (legal_suffixes : list string) : Prop :=
  ∃ r, main df legal_suffixes = Ok r
       ∧ ((0 < best_score r)%Q →
          ∃ first second,
            out_df r = df ++ [first; second]
            ∧ [first.1; second.1] = derived_names (best_type r)
            ∧ (best_type r = PhoneNumber ∨ best_type r = CompanyName)).

(** The fraction of [values] that satisfy [pred]. *)
Definition fraction (pred : string → bool) (values : list string) : Q :=
  Z.of_nat (count_if pred values) # Pos.of_nat (max (length values) 1).

(** The candidate tuples of a frame: for each column in order, its
    phone score and then its company score. *)
Fixpoint candidates_of (df : DataFrame) (legal_suffixes : list string)
  : list (string * label * Q) :=
  match df with
  | [] => []
  | (col, values) :: rest =>
      (col, PhoneNumber, fraction looks_like_phone values)
        :: (col, CompanyName,
            fraction (λ v, looks_like_company v legal_suffixes) values)
        :: candidates_of rest legal_suffixes
  end.

(** The same notions at a position [i] of a rest [s] of the subject,
    [prev] being the character before that rest. *)
Definition before (prev : option ascii) (s : string) (i : nat) : option ascii :=
  match i with 0 => prev | S j => String.get j s end.

Definition bnd (prev : option ascii) (s : string) (i : nat) : Prop :=
  opt_isword (before prev s i) ≠ opt_isword (String.get i s).

Definition occurs (prev : option ascii) (suf s : string) (i : nat) : Prop :=
  str_take (String.length suf) (str_drop i s) = suf
  ∧ bnd prev s i
  ∧ bnd prev s (i + String.length suf).

End Spec.

(** Sample inputs for the dispatcher. *)
Module ServerSamples.
Import Py Server.

Definition dq : string := String (ascii_of_nat 34) EmptyString.

(** The line [{"id": 1, "tool": []}]. *)
Definition array_tool_line : string :=
  "{" +:+ dq +:+ "id" +:+ dq +:+ ": 1, " +:+ dq +:+ "tool" +:+ dq +:+ ": []}".

(** The line [{"id": 2, "tool": "list_tools"}]. *)
Definition list_tools_line : string :=
  "{" +:+ dq +:+ "id" +:+ dq +:+ ": 2, " +:+ dq +:+ "tool" +:+ dq +:+ ": "
    +:+ dq +:+ "list_tools" +:+ dq +:+ "}".

(** A world in which [json.loads] knows these two lines, the data
    directory is missing and every subprocess exits with status 0. *)
Definition sample_world : world := {|
  py_str := λ v, match v with PStr s => s | _ => type_name v end;
  json_loads := λ line,
    if String.eqb line array_tool_line then
      Ok (PDict [("id", PInt 1); ("tool", PList [])])
    else if String.eqb line list_tools_line then
      Ok (PDict [("id", PInt 2); ("tool", PStr "list_tools")])
    else Raise (Exn JSONDecodeError "Expecting value: line 1 column 1 (char 0)");
  data_csv_files := [];
  sys_executable := "python3";
  base_path := λ p, "/srv/" +:+ p;
  subprocess_run := λ _, Ok (0%Z, "Other", "")
|}.

End ServerSamples.

(* ================================================================== *)
(** * The resource loaders of predict.py *)
(* ================================================================== *)

Module Loader.
Import Py.

(** A text file as a loader sees it: [None] when [os.path.exists] says
    no, else the lines that iterating the open file yields. *)
Abbreviation text_file := (option (list string)).

Definition load_countries (file : text_file) : gset string :=
  match file with
  | None => ∅
  | Some lines =>
      list_to_set
        ((λ line, lower (strip line))
           <$> List.filter (λ line, negb (is_empty (strip line))) lines)
  end.

(** The loop of [load_legal_suffixes] over the lines. *)
Fixpoint collect_suffixes (lines : list string) : list string :=
  match lines with
  | [] => []
  | line :: rest =>
      let line := lower (strip line) in
      if is_empty line || startswith "#" line then collect_suffixes rest
      else line :: collect_suffixes rest
  end.

(** [suffixes.sort(key=len, reverse=True)].  The sort of Python is
    stable, also with [reverse=True]: items of one length keep their
    order.  There is one such arrangement of a list, and insertion from
    the right builds it: an item goes before the first item that is not
    longer than it. *)
Fixpoint insert_by_len (x : string) (sorted : list string) : list string :=
  match sorted with
  | [] => [x]
  | y :: rest =>
      if String.length x <? String.length y then y :: insert_by_len x rest
      else x :: y :: rest
  end.

Definition sort_by_len_desc (l : list string) : list string :=
  foldr insert_by_len [] l.

Definition load_legal_suffixes (file : text_file) : list string :=
  match file with
  | None => []
  | Some lines => sort_by_len_desc (collect_suffixes lines)
  end.

End Loader.

(* ================================================================== *)
(** * Further vocabulary *)
(* ================================================================== *)

Module Notions.
Import Py Pandas Predict Parser Spec.

(** [a] is at least as long as [b]. *)
Definition no_shorter (a b : string) : Prop := String.length b ≤ String.length a.

(** The items of [l] that are [n] characters long, in order. *)
Definition of_length (n : nat) (l : list string) : list string :=
  List.filter (λ x, String.length x =? n) l.

(** A line that [load_legal_suffixes] keeps, as it keeps it. *)
Definition suffix_entry (line entry : string) : Prop :=
  entry = lower (strip line) ∧ entry ≠ "" ∧ startswith "#" entry = false.

(** [suf] occurs somewhere in [s] as a whole word. *)
Definition occurs_in (suf s : string) : Prop := ∃ i, whole_word_at suf s i.

(** Every character of [s] satisfies [p]. *)
Fixpoint all_chars (p : ascii → bool) (s : string) : bool :=
  match s with
  | EmptyString => true
  | String c t => p c && all_chars p t
  end.

(** The last character of a string. *)
Fixpoint str_last (s : string) : option ascii :=
  match s with
  | EmptyString => None
  | String c EmptyString => Some c
  | String _ t => str_last t
  end.

(** [s] neither starts nor ends with a character of [chars]. *)
Definition trimmed_of (chars s : string) : Prop :=
  (∀ c, str_head s = Some c → str_mem c chars = false)
  ∧ (∀ c, str_last s = Some c → str_mem c chars = false).

(** The value is blank: nothing is left of it once stripped. *)
Definition blank (v : string) : Prop := strip v = "".

(** The first candidate of the largest score. *)
Definition first_best (candidates : list (string * label * Q))
    (best : string * label * Q) : Prop :=
  ∃ l1 l2,
    candidates = l1 ++ best :: l2
    ∧ (∀ c, c ∈ l1 → (c.2 < best.2)%Q)
    ∧ (∀ c, c ∈ l2 → (c.2 <= best.2)%Q).

(** The cells the parser of a winning type derives from a column. *)
Definition derived_cells (t : label) (legal_suffixes : list string)
    (cells : list string) : list (string * string) :=
  match t with
  | PhoneNumber => parse_phone_number <$> cells
  | _ => (λ v, parse_company_name v legal_suffixes) <$> cells
  end.

End Notions.

(** Further notions and samples for the dispatcher. *)
Module ServerNotions.
Import Py Server.

(** Where an exception of a tool can come from: it is an [Exception]
    the tool raised, or [subprocess.run] raised it. *)
Definition from_tool (w : world) (e : exn) : Prop :=
  is_Exception (exn_kind e) = true ∨ ∃ cmd, subprocess_run w cmd = Raise e.

(** The world of the samples, with a [subprocess.run] that is
    interrupted from the keyboard. *)
Definition interrupted_world : world := {|
  py_str := py_str ServerSamples.sample_world;
  json_loads := json_loads ServerSamples.sample_world;
  data_csv_files := [];
  sys_executable := "python3";
  base_path := λ p, "/srv/" +:+ p;
  subprocess_run := λ _, Raise (Exn KeyboardInterrupt "")
|}.

(** A request to parse [data/test.csv]. *)
Definition parse_request : list (string * pyval) :=
  [("id", PInt 3); ("tool", PStr "parse_file");
   ("args", PDict [("file_path", PStr "data/test.csv")])].

End ServerNotions.

(* ================================================================== *)
(** * Facts about the builtins *)
(* ================================================================== *)

Module PyFacts.
Import Py.

(** Settle a decidable closed goal by evaluation. *)
Ltac by_eval := apply (bool_decide_unpack _); vm_compute; exact I.

Lemma Qge_bool_spec x y : Qge_bool x y = true ↔ (y <= x)%Q.
Proof. unfold Qge_bool. apply Qle_bool_iff. Qed.

Lemma Qgt_bool_spec x y : Qgt_bool x y = true ↔ (y < x)%Q.
Proof.
  unfold Qgt_bool. rewrite negb_true_iff, <- not_true_iff_false, Qle_bool_iff.
  split; [apply Qnot_le_lt | apply Qlt_not_le].
Qed.

Lemma Qlt_bool_spec x y : Qlt_bool x y = true ↔ (x < y)%Q.
Proof. apply (Qgt_bool_spec y x). Qed.

Lemma Qgt_bool_false x y : Qgt_bool x y = false ↔ (x <= y)%Q.
Proof.
  unfold Qgt_bool. rewrite negb_false_iff. apply Qle_bool_iff.
Qed.

Lemma Qge_bool_false x y : Qge_bool x y = false ↔ (x < y)%Q.
Proof.
  unfold Qge_bool. rewrite <- not_true_iff_false, Qle_bool_iff.
  split; [apply Qnot_le_lt | apply Qlt_not_le].
Qed.

Lemma Qlt_bool_false x y : Qlt_bool x y = false ↔ (y <= x)%Q.
Proof. apply (Qgt_bool_false y x). Qed.

(** Division by a positive integer never raises. *)
Lemma truediv_pos a b :
  0 < b → truediv a b = Ok (Z.of_nat a # Pos.of_nat b).
Proof. destruct b; [lia | reflexivity]. Qed.

Lemma count_if_filter {A} (p : A → bool) l :
  count_if p l = length (List.filter p l).
Proof.
  induction l as [|x l IH]; simpl; [done|].
  destruct (p x); simpl; lia.
Qed.

Lemma count_if_le_length {A} (p : A → bool) l : count_if p l ≤ length l.
Proof.
  induction l as [|x l IH]; simpl; [done|]. destruct (p x); lia.
Qed.

(** A quotient [a / b] of naturals with [a <= b] lies in the unit
    interval. *)
Lemma ratio_unit a b :
  a ≤ b → 0 < b → (0 <= Z.of_nat a # Pos.of_nat b <= 1)%Q.
Proof.
  intros Hab Hb. unfold Qle; simpl. split; [lia|].
  rewrite Z.mul_1_r, Z.mul_1_l.
  rewrite <- (positive_nat_Z (Pos.of_nat b)), Nat2Pos.id by lia. lia.
Qed.

Lemma ratio_mono a a' b :
  a ≤ a' → (Z.of_nat a # Pos.of_nat b <= Z.of_nat a' # Pos.of_nat b)%Q.
Proof.
  intros H. unfold Qle; simpl. apply Z.mul_le_mono_nonneg_r; lia.
Qed.

(** [max] returns the first item with the largest key: every item
    before it has a smaller key, every item after it no larger a key. *)
Lemma max_loop_first {A} (key : A → Q) (best : A) (l : list A) :
  ∃ l1 l2,
    best :: l = l1 ++ max_loop key best l :: l2
    ∧ (∀ y, y ∈ l1 → (key y < key (max_loop key best l))%Q)
    ∧ (∀ y, y ∈ l2 → (key y <= key (max_loop key best l))%Q).
Proof.
  revert best. induction l as [|x t IH]; intros best.
  - exists [], []. simpl. split; [done|]. split; intros y Hy; inversion Hy.
  - simpl. destruct (Qgt_bool (key x) (key best)) eqn:Hcmp.
    + apply Qgt_bool_spec in Hcmp.
      destruct (IH x) as (l1 & l2 & Heq & Hlt & Hle).
      exists (best :: l1), l2. split; [by rewrite Heq|]. split; [|done].
      intros y Hy. apply elem_of_cons in Hy as [->|Hy]; [|by apply Hlt].
      destruct l1 as [|z l1]; simpl in Heq.
      * injection Heq as Hx _. by rewrite <- Hx.
      * injection Heq as <- _.
        eapply Qlt_trans; [exact Hcmp|]. apply Hlt. by left.
    + apply Qgt_bool_false in Hcmp.
      destruct (IH best) as (l1 & l2 & Heq & Hlt & Hle).
      destruct l1 as [|z l1]; simpl in Heq.
      * injection Heq as Hb Ht. exists [], (x :: l2).
        split; [simpl; by rewrite <- Hb, Ht|].
        split; [intros y Hy; inversion Hy|].
        intros y Hy. apply elem_of_cons in Hy as [->|Hy]; [|by apply Hle].
        by rewrite <- Hb.
      * injection Heq as <- Ht. exists (best :: x :: l1), l2.
        split; [simpl; by rewrite <- Ht|]. split; [|done].
        intros y Hy. apply elem_of_cons in Hy as [->|Hy]; [apply Hlt; by left|].
        apply elem_of_cons in Hy as [->|Hy].
        -- eapply Qle_lt_trans; [exact Hcmp|]. apply Hlt. by left.
        -- apply Hlt. by right.
Qed.

End PyFacts.


(* ================================================================== *)
(** * The scorers of predict.py *)
(* ================================================================== *)

Module ScorerSpec.
Import Py Predict PyFacts Spec.

(** The three fraction scorers never raise. *)
Lemma score_phone_fraction values :
  score_phone values = Ok (fraction looks_like_phone values).
Proof. unfold score_phone. by rewrite truediv_pos by lia. Qed.

Lemma score_company_fraction values legal_suffixes :
  score_company values legal_suffixes
  = Ok (fraction (λ v, looks_like_company v legal_suffixes) values).
Proof. unfold score_company. by rewrite truediv_pos by lia. Qed.

Lemma score_date_fraction dateutil_parses values :
  score_date dateutil_parses values
  = Ok (fraction (is_parsable_date dateutil_parses) values).
Proof. unfold score_date. by rewrite truediv_pos by lia. Qed.

Lemma fraction_score_intro (pred : string → bool) :
  fraction_score
    (λ values, truediv (count_if pred values) (max (length values) 1)) pred.
Proof.
  assert (Hval : ∀ values,
             truediv (count_if pred values) (max (length values) 1)
             = Ok (Z.of_nat (length (List.filter pred values))
                     # Pos.of_nat (max (length values) 1))).
  { intros values. rewrite truediv_pos by lia. by rewrite count_if_filter. }
  split; [|split].
  - intros values. eexists. split; [apply Hval|]. split; [done|].
    apply ratio_unit; [|lia].
    rewrite <- count_if_filter. pose proof (count_if_le_length pred values). lia.
  - reflexivity.
  - intros values values' q q' Hlen Hcount Hq Hq'.
    rewrite Hval in Hq, Hq'. injection Hq as <-. injection Hq' as <-.
    rewrite Hlen. by apply ratio_mono.
Qed.

(** C7.  [score_phone], [score_date] and [score_company] each return,
    without raising, the number of values satisfying their predicate
    divided by [max(len(values), 1)]; the result lies in [0, 1], is 0 on
    the empty list, and grows with the number of matching values when
    the length is fixed. *)
Theorem scores_are_fractions (dateutil_parses : string → bool)
    (legal_suffixes : list string) :
  fraction_score score_phone looks_like_phone
  ∧ fraction_score (score_date dateutil_parses) (is_parsable_date dateutil_parses)
  ∧ fraction_score (λ values, score_company values legal_suffixes)
      (λ v, looks_like_company v legal_suffixes).
Proof.
  split; [|split]; apply fraction_score_intro.
Qed.

(** [scores_are_fractions] at work: one phone-like value out of four
    scores no more than three out of four. *)
Lemma scores_are_fractions_witness :
  ∃ q q',
    score_phone ["5551234"; "x"; "y"; "z"] = Ok q
    ∧ score_phone ["5551234"; "+14155552671"; "020 7946 0958"; "z"] = Ok q'
    ∧ (q <= q')%Q.
Proof.
  destruct (scores_are_fractions (λ _, false) []) as [(Hval & _ & Hmono) _].
  destruct (Hval ["5551234"; "x"; "y"; "z"]) as (q & Hq & _).
  destruct (Hval ["5551234"; "+14155552671"; "020 7946 0958"; "z"])
    as (q' & Hq' & _).
  exists q, q'. split; [exact Hq|]. split; [exact Hq'|].
  apply (Hmono ["5551234"; "x"; "y"; "z"]
           ["5551234"; "+14155552671"; "020 7946 0958"; "z"] q q');
    [reflexivity| |exact Hq|exact Hq'].
  vm_compute. lia.
Defined.

Lemma country_loop countries_set values hits total :
  foldl (country_step countries_set) (hits, total) values
  = (hits + length (known countries_set (normalised values)),
     total + length (normalised values)).
Proof.
  revert hits total. induction values as [|v values IH]; intros hits total.
  - simpl. f_equal; lia.
  - cbn [foldl]. unfold normalised, known.
    cbn [fmap list_fmap List.filter].
    replace (country_step countries_set (hits, total) v)
      with (if is_empty (lower (strip v)) then (hits, total)
            else if bool_decide (lower (strip v) ∈ countries_set)
                 then (S hits, S total) else (hits, S total))
      by (unfold country_step; by repeat case_match).
    destruct (is_empty (lower (strip v))); cbn [negb List.filter];
      [apply IH|].
    destruct (bool_decide (lower (strip v) ∈ countries_set));
      rewrite IH; unfold normalised, known; cbn [length]; f_equal; lia.
Qed.

(** C6.  [score_country] returns 0 on an empty country set.  On a
    non-empty one it strips and lowercases each value, leaves out the
    values that are then empty, and returns the number of the remaining
    values found in the set over the number of remaining values, or 0
    when none remains. *)
Theorem score_country_spec (values : list string) (countries_set : gset string) :
  (countries_set = ∅ → score_country values countries_set = Ok 0%Q)
  ∧ (countries_set ≠ ∅ →
     let considered := normalised values in
     let hits := known countries_set considered in
     (considered = [] → score_country values countries_set = Ok 0%Q)
     ∧ (considered ≠ [] →
        score_country values countries_set
        = Ok (Z.of_nat (length hits) # Pos.of_nat (length considered)))).
Proof.
  unfold score_country. split.
  - intros ->. reflexivity.
  - intros Hne. rewrite bool_decide_eq_false_2 by done.
    rewrite country_loop. simpl. split.
    + intros ->. reflexivity.
    + intros Hcons. destruct (normalised values) as [|x l] eqn:E; [done|].
      reflexivity.
Qed.

(** [score_country_spec] at work. *)
Lemma score_country_spec_witness :
  score_country ["India"; " "; "Peru"; " france "] ∅ = Ok 0%Q
  ∧ score_country ["India"; " "; "Peru"; " france "] {[ "india"; "france" ]}
    = Ok (2 # 3)%Q
  ∧ score_country [""; "  "] {[ "india" ]} = Ok 0%Q.
Proof.
  assert (Hne : ({[ "india"; "france" ]} : gset string) ≠ ∅)
    by (apply (bool_decide_unpack _); vm_compute; exact I).
  assert (Hne' : ({[ "india" ]} : gset string) ≠ ∅)
    by (apply (bool_decide_unpack _); vm_compute; exact I).
  split; [|split].
  - apply (proj1 (score_country_spec _ ∅)). reflexivity.
  - apply (proj2 (proj2 (score_country_spec
                           ["India"; " "; "Peru"; " france "] _) Hne)).
    vm_compute. discriminate.
  - apply (proj1 (proj2 (score_country_spec [""; "  "] _) Hne')).
    reflexivity.
Defined.

(** Nor does [score_country]. *)
Lemma score_country_total values countries_set :
  ∃ q, score_country values countries_set = Ok q.
Proof.
  unfold score_country. destruct (bool_decide _); [eauto|].
  rewrite country_loop. cbn [Nat.add].
  destruct (normalised values); cbn; eauto.
Qed.

End ScorerSpec.

(* ================================================================== *)
(** * The label policy of predict.py *)
(* ================================================================== *)

Module PolicySpec.
Import Py Predict PyFacts Spec ScorerSpec.

Ltac order_facts :=
  repeat match goal with
    | H : Qge_bool _ _ = true |- _ => apply Qge_bool_spec in H
    | H : Qge_bool _ _ = false |- _ => apply Qge_bool_false in H
    | H : Qgt_bool _ _ = true |- _ => apply Qgt_bool_spec in H
    | H : Qgt_bool _ _ = false |- _ => apply Qgt_bool_false in H
    | H : Qlt_bool _ _ = true |- _ => apply Qlt_bool_spec in H
    | H : Qlt_bool _ _ = false |- _ => apply Qlt_bool_false in H
    end.

Lemma scores_get_four (s : column_scores) (k : label) :
  k ≠ Other →
  scores_get [(PhoneNumber, phone s); (Date, date s);
              (Country, country s); (CompanyName, company s)] k
  = Ok (score_of s k).
Proof. destruct k; intros Hk; try reflexivity. done. Qed.

Ltac prove_first_argmax :=
  split; [done|];
  split; intros k' Hk'; destruct k'; cbn in *; order_facts;
  solve [done | lia | lra].

(** The end of the argmax branch, once [max] has picked [k]. *)
Lemma argmax_branch (s : column_scores) (k : label) (q : Q) :
  first_argmax s k → q = score_of s k →
  ∃ l,
    (scores_get [(PhoneNumber, phone s); (Date, date s);
                 (Country, country s); (CompanyName, company s)] (k, q).1
     ≫= λ best_score, if Qlt_bool best_score (3 # 10) then mret Other else mret (k, q).1)
    = Ok l
    ∧ ∃ k, first_argmax s k
           ∧ ((score_of s k < 3 # 10)%Q → l = Other)
           ∧ ((3 # 10 <= score_of s k)%Q → l = k).
Proof.
  intros Hk ->. cbn [fst]. rewrite scores_get_four by apply Hk.
  cbn [mbind result_bind].
  destruct (Qlt_bool (score_of s k) (3 # 10)) eqn:Hlow; order_facts.
  - exists Other. split; [done|]. exists k.
    split; [exact Hk|]. split; [done|]. intros Hge. exfalso. lra.
  - exists k. split; [done|]. exists k.
    split; [exact Hk|]. split; [|done]. intros Hlt. exfalso. lra.
Qed.

(** Lines 151-163 on the dict built at lines 145-149. *)
Lemma pick_label_policy (s : column_scores) :
  ∃ l,
    pick_label [(PhoneNumber, phone s); (Date, date s);
                (Country, country s); (CompanyName, company s)] = Ok l
    ∧ policy s l.
Proof.
  unfold pick_label, policy.
  rewrite !scores_get_four by done. cbn [mbind result_bind score_of].
  destruct (Qge_bool (phone s) (8 # 10)) eqn:Hp.
  { eexists. split; [reflexivity|]. order_facts.
    repeat split; intros; try done; exfalso; lra. }
  destruct (Qge_bool (date s) (8 # 10)) eqn:Hd.
  { eexists. split; [reflexivity|]. order_facts.
    repeat split; intros; try done; exfalso; lra. }
  destruct (Qge_bool (country s) (8 # 10)) eqn:Hc.
  { eexists. split; [reflexivity|]. order_facts.
    repeat split; intros; try done; exfalso; lra. }
  cbn [max_key max_loop snd].
  assert (Hbranch : ∀ k q,
             first_argmax s k → q = score_of s k →
             ∃ l,
               (Ok (k, q) ≫= λ best,
                  scores_get [(PhoneNumber, phone s); (Date, date s);
                              (Country, country s); (CompanyName, company s)]
                    best.1
                  ≫= λ best_score,
                    if Qlt_bool best_score (3 # 10) then mret Other
                    else mret best.1) = Ok l
               ∧ ((8 # 10 <= phone s)%Q → l = PhoneNumber)
               ∧ ((phone s < 8 # 10)%Q → (8 # 10 <= date s)%Q → l = Date)
               ∧ ((phone s < 8 # 10)%Q → (date s < 8 # 10)%Q →
                  (8 # 10 <= country s)%Q → l = Country)
               ∧ ((phone s < 8 # 10)%Q → (date s < 8 # 10)%Q →
                  (country s < 8 # 10)%Q →
                  ∃ k, first_argmax s k
                       ∧ ((score_of s k < 3 # 10)%Q → l = Other)
                       ∧ ((3 # 10 <= score_of s k)%Q → l = k))).
  { intros k q Hk Hq.
    destruct (argmax_branch s k q Hk Hq) as (l & Hl & Hpol).
    exists l. split; [exact Hl|]. order_facts.
    repeat split; intros; try (exfalso; lra). exact Hpol. }
  destruct (Qgt_bool (date s) (phone s)) eqn:H1; cbn [snd];
    destruct (Qgt_bool (country s) _) eqn:H2; cbn [snd];
    destruct (Qgt_bool (company s) _) eqn:H3; cbn [snd];
    (apply Hbranch; [prove_first_argmax | reflexivity]).
Qed.

Section Policy.
Variable dateutil_parses : string → bool.

(** C1.  For every list of values, country set and suffix list, the
    four scorers return scores and [classify] returns a label (no
    exception); the label is PhoneNumber when the phone score is at
    least 0.8; otherwise Date when the date score is at least 0.8;
    otherwise Country when the country score is at least 0.8;
    otherwise the label of the largest of the four scores, the first
    in the order PhoneNumber, Date, Country, CompanyName among equals,
    replaced by Other when that largest score is below 0.3. *)
Theorem classify_policy (values : list string) (countries : gset string)
    (legal_suffixes : list string) :
  ∃ (s : column_scores) (l : label),
    score_phone values = Ok (phone s)
    ∧ score_date dateutil_parses values = Ok (date s)
    ∧ score_country values countries = Ok (country s)
    ∧ score_company values legal_suffixes = Ok (company s)
    ∧ classify dateutil_parses values countries legal_suffixes = Ok l
    ∧ policy s l.
Proof.
  destruct (score_country_total values countries) as [sc Hsc].
  pose proof (score_phone_fraction values) as Hsp.
  pose proof (score_date_fraction dateutil_parses values) as Hsd.
  pose proof (score_company_fraction values legal_suffixes) as Hsco.
  set (sp := fraction looks_like_phone values) in *.
  set (sd := fraction (is_parsable_date dateutil_parses) values) in *.
  set (sco := fraction (λ v, looks_like_company v legal_suffixes) values) in *.
  destruct (pick_label_policy
              {| phone := sp; date := sd; country := sc; company := sco |})
    as (l & Hl & Hpol).
  exists {| phone := sp; date := sd; country := sc; company := sco |}, l.
  cbn [phone date country company] in *.
  repeat (split; [assumption|]). split; [|exact Hpol].
  unfold classify, compute_scores.
  rewrite Hsp; cbn [mbind result_bind]. rewrite Hsd; cbn [mbind result_bind].
  rewrite Hsc; cbn [mbind result_bind]. rewrite Hsco; cbn [mbind result_bind].
  exact Hl.
Qed.

End Policy.

(** [classify_policy] at work on a column of two phone numbers and two
    blanks. *)
Lemma classify_policy_witness :
  ∃ (s : column_scores) (l : label),
    score_phone ["5551234"; "+14155552671"; ""; ""] = Ok (phone s)
    ∧ classify (λ _, false) ["5551234"; "+14155552671"; ""; ""] ∅ [] = Ok l
    ∧ policy s l.
Proof.
  destruct (classify_policy (λ _, false) ["5551234"; "+14155552671"; ""; ""] ∅ [])
    as (s & l & Hsp & _ & _ & _ & Hl & Hpol).
  exists s, l. auto.
Defined.

End PolicySpec.

(* ================================================================== *)
(** * The phone splitter of parser.py *)
(* ================================================================== *)

Module PhoneSpec.
Import Py Parser PyFacts Spec.

Lemma space_not_digit c : isspace c = true → isdigit c = false.
Proof.
  destruct c as [[] [] [] [] [] [] [] []]; vm_compute; congruence.
Qed.

Lemma filter_lstrip (p q : ascii → bool) s :
  (∀ c, q c = true → p c = false) →
  str_filter p (lstrip_by q s) = str_filter p s.
Proof.
  intros Hpq. induction s as [|c t IH]; [done|]. simpl.
  destruct (q c) eqn:Hq; [|done]. by rewrite (Hpq c Hq).
Qed.

Lemma filter_rstrip (p q : ascii → bool) s :
  (∀ c, q c = true → p c = false) →
  str_filter p (rstrip_by q s) = str_filter p s.
Proof.
  intros Hpq. induction s as [|c t IH]; [done|]. simpl.
  destruct (rstrip_by q t) as [|d t'] eqn:Ht.
  - simpl in IH. destruct (q c) eqn:Hq.
    + by rewrite (Hpq c Hq).
    + simpl. by rewrite <- IH.
  - change (str_filter p (String c (String d t')))
      with (if p c then String c (str_filter p (String d t'))
            else str_filter p (String d t')).
    by rewrite IH.
Qed.

(** Stripping white space loses no digit. *)
Lemma digits_strip raw : str_filter isdigit (strip raw) = digits_of raw.
Proof.
  unfold strip, strip_by, digits_of.
  rewrite filter_rstrip, filter_lstrip; auto using space_not_digit.
Qed.

Lemma dial_lookup code country :
  DIAL_CODE_TO_COUNTRY !! code = Some country ↔ (code, country) ∈ dial_codes.
Proof.
  unfold DIAL_CODE_TO_COUNTRY, dial_codes.
  rewrite !lookup_insert_Some, lookup_singleton_Some, !elem_of_cons, elem_of_nil.
  split.
  - intros [[<- <-]|[? [[<- <-]|[? [<- <-]]]]]; auto.
  - intros [[= -> ->]|[[= -> ->]|[[= -> ->]|[]]]]; auto 10.
Qed.

Lemma try_hit digits len country rest :
  dial_prefix digits len country →
  try_dial_codes digits (len :: rest) = Some (country, str_drop len digits).
Proof.
  intros [Hlen Hin]. simpl.
  rewrite (proj2 (Nat.leb_le _ _) Hlen).
  by rewrite (proj2 (dial_lookup _ _) Hin).
Qed.

Lemma try_miss digits len rest :
  (∀ country, ¬ dial_prefix digits len country) →
  try_dial_codes digits (len :: rest) = try_dial_codes digits rest.
Proof.
  intros Hno. simpl.
  destruct (len <=? String.length digits) eqn:Hlen; [|done].
  destruct (DIAL_CODE_TO_COUNTRY !! str_take len digits) as [country|] eqn:Hc;
    [|done].
  exfalso. apply (Hno country). split; [by apply Nat.leb_le|].
  by apply dial_lookup.
Qed.

Lemma has_plus_startswith raw : has_plus raw ↔ startswith "+" (strip raw) = true.
Proof.
  unfold has_plus, startswith. split.
  - intros [rest ->]. reflexivity.
  - destruct (strip raw) as [|c rest]; cbn [startswith]; [done|].
    destruct (Ascii.eqb_spec "+" c) as [<-|]; [eauto|done].
Qed.

Lemma parse_no_digits raw :
  digits_of raw = "" → parse_phone_number raw = ("", "").
Proof.
  intros H. unfold parse_phone_number. by rewrite digits_strip, H.
Qed.

Lemma parse_with_digits raw :
  digits_of raw ≠ "" →
  parse_phone_number raw
  = if startswith "+" (strip raw) then
      match try_dial_codes (digits_of raw) [3; 2; 1] with
      | Some r => r
      | None => ("", digits_of raw)
      end
    else ("", digits_of raw).
Proof.
  intros H. unfold parse_phone_number. rewrite digits_strip.
  by destruct (digits_of raw).
Qed.

(** C3.  [parse_phone_number] returns two empty strings when the input
    has no digit.  When the stripped input starts with [+], the dial
    code that is a prefix of the digits, the longest of length 3, 2 or 1
    in the table 1 = US, 44 = UK, 91 = India, gives the country, and the
    digits after it the number.  Without [+], or when no prefix is a
    dial code, the country is empty and the number is all the digits. *)
Theorem parse_phone_number_spec :
  (∀ raw : string,
      let digits := digits_of raw in
      (digits = "" → parse_phone_number raw = ("", ""))
      ∧ (digits ≠ "" → has_plus raw →
         ∀ len country,
           len ∈ [3; 2; 1] → dial_prefix digits len country →
           (∀ len' country',
               len' ∈ [3; 2; 1] → len < len' → ¬ dial_prefix digits len' country') →
           parse_phone_number raw = (country, str_drop len digits))
      ∧ (digits ≠ "" →
         ¬ has_plus raw
         ∨ (∀ len country, len ∈ [3; 2; 1] → ¬ dial_prefix digits len country) →
         parse_phone_number raw = ("", digits)))
  ∧ (∀ code country,
        DIAL_CODE_TO_COUNTRY !! code = Some country
        ↔ (code, country) ∈ [("1", "US"); ("44", "UK"); ("91", "India")])
  ∧ parse_phone_number "+14155552671" = ("US", "4155552671")
  ∧ parse_phone_number "5551234" = ("", "5551234").
Proof.
  split; [|split; [exact dial_lookup|split; reflexivity]].
  intros raw digits. split; [apply parse_no_digits|]. split.
  - intros Hd Hplus len country Hlen Hpre Hlonger.
    rewrite parse_with_digits by done.
    rewrite (proj1 (has_plus_startswith raw) Hplus). fold digits.
    assert (Hmiss : ∀ len', len' ∈ [3; 2; 1] → len < len' →
                            ∀ c, ¬ dial_prefix digits len' c)
      by (intros len' ? ? c; by apply Hlonger).
    rewrite !elem_of_cons, elem_of_nil in Hlen.
    destruct Hlen as [->|[->|[->|[]]]].
    + by rewrite (try_hit _ _ _ _ Hpre).
    + rewrite try_miss by (apply Hmiss; [by_eval|lia]).
      by rewrite (try_hit _ _ _ _ Hpre).
    + rewrite !try_miss by (apply Hmiss; [by_eval|lia]).
      by rewrite (try_hit _ _ _ _ Hpre).
  - intros Hd Hcase. rewrite parse_with_digits by done. fold digits.
    destruct (startswith "+" (strip raw)) eqn:Hplus; [|done].
    destruct Hcase as [Hno|Hno].
    { exfalso. apply Hno. by apply has_plus_startswith. }
    rewrite !try_miss; [done|..]; intros c; apply Hno; by_eval.
Qed.

(** [parse_phone_number_spec] at work on a British number. *)
Lemma parse_phone_number_spec_witness :
  parse_phone_number " +44 20 7946 0958" = ("UK", "2079460958")
  ∧ parse_phone_number "n/a" = ("", "")
  ∧ parse_phone_number "(555) 123-4567" = ("", "5551234567").
Proof.
  destruct parse_phone_number_spec as [Hspec _].
  split; [|split].
  - destruct (Hspec " +44 20 7946 0958") as (_ & H & _).
    apply (H ltac:(vm_compute; discriminate)
             ltac:(eexists; vm_compute; reflexivity) 2 "UK").
    + by_eval.
    + split; [vm_compute; lia|by_eval].
    + intros len' country' Hlen' Hlt [_ Hin].
      rewrite !elem_of_cons, elem_of_nil in Hlen'.
      destruct Hlen' as [->|[->|[->|[]]]]; try lia.
      apply dial_lookup in Hin. vm_compute in Hin. discriminate.
  - destruct (Hspec "n/a") as (H & _). apply H. reflexivity.
  - destruct (Hspec "(555) 123-4567") as (_ & _ & H).
    apply H; [vm_compute; discriminate|].
    left. intros [rest Hrest]. vm_compute in Hrest. discriminate.
Defined.

(** C10.  When the stripped input starts with [+] and its digits are
    exactly a dial code of the table, the result is the country of that
    code with an empty number. *)
Theorem parse_phone_number_code_only (raw country : string) :
  has_plus raw →
  (digits_of raw, country) ∈ dial_codes →
  parse_phone_number raw = (country, "").
Proof.
  intros Hplus Hin.
  assert (Hd : digits_of raw ≠ "").
  { intros He. rewrite He in Hin. unfold dial_codes in Hin.
    rewrite !elem_of_cons, elem_of_nil in Hin.
    by destruct Hin as [[=]|[[=]|[[=]|[]]]]. }
  rewrite parse_with_digits by done.
  rewrite (proj1 (has_plus_startswith raw) Hplus).
  unfold dial_codes in Hin. rewrite !elem_of_cons, elem_of_nil in Hin.
  destruct Hin as [[= -> ->]|[[= -> ->]|[[= -> ->]|[]]]]; reflexivity.
Qed.

(** [parse_phone_number_code_only] on the input [+1]. *)
Lemma parse_phone_number_code_only_witness :
  parse_phone_number "+1" = ("US", "").
Proof.
  apply parse_phone_number_code_only.
  - exists "1". reflexivity.
  - by_eval.
Defined.

End PhoneSpec.

(* ================================================================== *)
(** * The company-name splitter of parser.py *)
(* ================================================================== *)

Module CompanySpec.
Import Py Parser PyFacts Spec.

Lemma occurs_whole_word suf s i : occurs None suf s i ↔ whole_word_at suf s i.
Proof. reflexivity. Qed.

Lemma boundary_bnd prev s : boundary prev s = true ↔ bnd prev s 0.
Proof.
  unfold boundary, bnd. cbn [before].
  replace (String.get 0 s) with (str_head s) by (by destruct s).
  destruct (opt_isword prev), (opt_isword (str_head s)); cbn; split; congruence.
Qed.

Lemma bnd_shift prev c t i : bnd prev (String c t) (S i) ↔ bnd (Some c) t i.
Proof. unfold bnd. cbn [before String.get]. by destruct i. Qed.

Lemma literal_spec lit prev s :
  literal_then_boundary lit prev s = true
  ↔ str_take (String.length lit) s = lit ∧ bnd prev s (String.length lit).
Proof.
  revert prev s. induction lit as [|a lit IH]; intros prev s.
  - cbn [literal_then_boundary String.length]. rewrite boundary_bnd.
    replace (str_take 0 s) with "" by (by destruct s).
    split; [by intros | by intros [_ H]].
  - cbn [literal_then_boundary String.length].
    destruct s as [|c t]; cbn [str_take].
    { split; [done | by intros [H _]]. }
    rewrite bnd_shift.
    destruct (Ascii.eqb_spec a c) as [->|Hne].
    + rewrite IH. split.
      * intros [H1 H2]. by rewrite H1.
      * by intros [[= H1] H2].
    + split; [done|]. intros [[= H1 H2] _]. congruence.
Qed.

Lemma match_here_spec suf prev s :
  match_here suf prev s = true ↔ occurs prev suf s 0.
Proof.
  unfold match_here, occurs. rewrite andb_true_iff, boundary_bnd, literal_spec.
  replace (str_drop 0 s) with s by (by destruct s).
  cbn [Nat.add]. tauto.
Qed.

Lemma occurs_shift prev suf c t i :
  occurs prev suf (String c t) (S i) ↔ occurs (Some c) suf t i.
Proof.
  unfold occurs. cbn [str_drop].
  by rewrite bnd_shift, (bnd_shift prev c t (i + String.length suf)).
Qed.

(** Past the end of the subject there is no boundary. *)
Lemma occurs_empty prev suf i : occurs prev suf "" (S i) → False.
Proof.
  intros (_ & Hb & _). unfold bnd in Hb. cbn in Hb. by destruct i.
Qed.

Lemma search_from_some suf prev s k n :
  search_from suf prev s k = Some n →
  ∃ i, n = k + i ∧ occurs prev suf s i ∧ ∀ j, j < i → ¬ occurs prev suf s j.
Proof.
  revert prev k. induction s as [|c t IH]; intros prev k; cbn [search_from];
    destruct (match_here suf prev _) eqn:Hm.
  - intros [= <-]. exists 0. apply match_here_spec in Hm.
    split; [lia|]. split; [done|]. intros; lia.
  - done.
  - intros [= <-]. exists 0. apply match_here_spec in Hm.
    split; [lia|]. split; [done|]. intros; lia.
  - intros Hs. destruct (IH _ _ Hs) as (i & -> & Hocc & Hfirst).
    exists (S i). split; [lia|]. split; [by apply occurs_shift|].
    intros [|j] Hj.
    + rewrite <- match_here_spec. congruence.
    + rewrite occurs_shift. apply Hfirst. lia.
Qed.

Lemma search_from_none suf prev s k :
  search_from suf prev s k = None → ∀ i, ¬ occurs prev suf s i.
Proof.
  revert prev k. induction s as [|c t IH]; intros prev k; cbn [search_from];
    destruct (match_here suf prev _) eqn:Hm; try done.
  - intros _ [|i]; [rewrite <- match_here_spec; congruence|].
    exact (occurs_empty prev suf i).
  - intros Hs [|i]; [rewrite <- match_here_spec; congruence|].
    rewrite occurs_shift. by eapply IH.
Qed.

(** [re.search] finds the first whole-word occurrence, and fails only
    when there is none. *)
Lemma re_search_word_first suf s i :
  first_whole_word suf s i → re_search_word suf s = Some i.
Proof.
  intros [Hocc Hfirst]. unfold re_search_word.
  destruct (search_from suf None s 0) as [n|] eqn:Hs.
  - destruct (search_from_some _ _ _ _ _ Hs) as (i' & -> & Hocc' & Hfirst').
    f_equal. cbn.
    destruct (Nat.lt_trichotomy i' i) as [Hlt|[->|Hgt]]; [|done|].
    + by destruct (Hfirst _ Hlt).
    + by destruct (Hfirst' _ Hgt).
  - by destruct (search_from_none _ _ _ _ Hs i).
Qed.

Lemma re_search_word_none suf s :
  no_whole_word suf s → re_search_word suf s = None.
Proof.
  intros Hno. unfold re_search_word.
  destruct (search_from suf None s 0) as [n|] eqn:Hs; [|done].
  destruct (search_from_some _ _ _ _ _ Hs) as (i & _ & Hocc & _).
  by destruct (Hno i).
Qed.

Lemma re_search_word_sound suf s i :
  re_search_word suf s = Some i → first_whole_word suf s i.
Proof.
  unfold re_search_word. intros Hs.
  destruct (search_from_some _ _ _ _ _ Hs) as (i' & -> & Hocc & Hfirst).
  by split.
Qed.

Lemma re_search_word_none_sound suf s :
  re_search_word suf s = None → no_whole_word suf s.
Proof.
  unfold re_search_word. intros Hs i. rewrite <- occurs_whole_word.
  by eapply search_from_none.
Qed.

Lemma split_at_suffix_first s low suffixes k suf i :
  suffixes !! k = Some suf →
  (∀ j suf', j < k → suffixes !! j = Some suf' → no_whole_word suf' low) →
  first_whole_word suf low i →
  split_at_suffix s low suffixes
  = (strip_chars " ,.-" (str_take i s), strip_chars " ,.-" (str_drop i s)).
Proof.
  revert k. induction suffixes as [|suf0 rest IH]; intros k Hk Hearlier Hfirst.
  - by rewrite lookup_nil in Hk.
  - destruct k as [|k]; cbn [split_at_suffix].
    + injection Hk as ->. by rewrite (re_search_word_first _ _ _ Hfirst).
    + rewrite (re_search_word_none suf0 low) by (apply (Hearlier 0); [lia|done]).
      apply (IH k); [done| |done].
      intros j suf' Hj Hsuf'. apply (Hearlier (S j)); [lia|done].
Qed.

(** C2, as the code has it.  [parse_company_name] splits the stripped
    input at the start of the first whole-word occurrence, in the
    lowercase copy, of the first suffix of the list that occurs at all;
    both parts are stripped of spaces, commas, periods and hyphens.  The
    period that ends the input is therefore stripped from the legal
    part too: "Acme Widgets, Inc." with the suffix "inc" gives
    "Acme Widgets" and "Inc". *)
Theorem parse_company_name_split :
  parse_company_name "Acme Widgets, Inc." ["inc"] = ("Acme Widgets", "Inc")
  ∧ ∀ (raw : string) (suffixes : list string) (k : nat) (suf : string) (i : nat),
      let s := strip raw in
      let low := lower s in
      s ≠ "" →
      suffixes !! k = Some suf →
      (∀ j suf', j < k → suffixes !! j = Some suf' → no_whole_word suf' low) →
      first_whole_word suf low i →
      parse_company_name raw suffixes
      = (strip_chars " ,.-" (str_take i s), strip_chars " ,.-" (str_drop i s)).
Proof.
  split; [reflexivity|].
  intros raw suffixes k suf i s low Hs Hk Hearlier Hfirst.
  subst s low. unfold parse_company_name.
  assert (is_empty (strip raw) = false) as -> by (by destruct (strip raw)).
  by eapply split_at_suffix_first.
Qed.

(** [parse_company_name_split] at work: the first suffix of the list
    does not occur, the second occurs at position 7 of the stripped
    input. *)
Lemma parse_company_name_split_witness :
  parse_company_name " Globex GmbH & Co. KG." ["inc"; "gmbh"]
  = ("Globex", "GmbH & Co. KG").
Proof.
  apply (proj2 parse_company_name_split
           " Globex GmbH & Co. KG." ["inc"; "gmbh"] 1 "gmbh" 7).
  - vm_compute. discriminate.
  - reflexivity.
  - intros [|j] suf' Hj Hsuf'; [|lia]. injection Hsuf' as <-.
    apply re_search_word_none_sound. reflexivity.
  - apply re_search_word_sound. reflexivity.
Defined.

(** The claimed result, with the period kept, is not what the code
    returns. *)
Lemma parse_company_name_keeps_no_period :
  parse_company_name "Acme Widgets, Inc." ["inc"] = ("Acme Widgets", "Inc")
  ∧ parse_company_name "Acme Widgets, Inc." ["inc"] ≠ ("Acme Widgets", "Inc.").
Proof. split; [reflexivity|]. vm_compute. discriminate. Qed.

End CompanySpec.

(* ================================================================== *)
(** * The parse operation of parser.py *)
(* ================================================================== *)

Module ParseSpec.
Import Py Pandas Predict Parser PyFacts Spec ScorerSpec.

Lemma get_column_in df col values :
  (col, values) ∈ df → ∃ cells, get_column df col = Some cells.
Proof.
  induction df as [|[n c] rest IH]; intros Hin; [by apply elem_of_nil in Hin|].
  cbn [get_column]. destruct (String.eqb_spec n col) as [->|Hne]; [eauto|].
  apply elem_of_cons in Hin as [[= <- <-]|Hin]; [done|]. by apply IH.
Qed.

(** Assigning a column under a name the frame does not have appends it. *)
Lemma set_column_fresh df name cells :
  name ∉ columns df → set_column df name cells = df ++ [(name, cells)].
Proof.
  unfold columns. induction df as [|[n c] rest IH]; intros Hfresh; [done|].
  cbn [set_column]. rewrite fmap_cons, not_elem_of_cons in Hfresh.
  destruct Hfresh as [Hne Hfresh]. cbn [fst] in Hne.
  destruct (String.eqb_spec n name) as [->|_]; [done|].
  by rewrite IH.
Qed.

(** Assigning a column under a name the frame has replaces its cells. *)
Lemma set_column_taken df name cells :
  name ∈ columns df → columns (set_column df name cells) = columns df.
Proof.
  unfold columns. induction df as [|[n c] rest IH]; intros Hin;
    [by apply elem_of_nil in Hin|].
  cbn [set_column]. destruct (String.eqb_spec n name) as [->|Hne]; [done|].
  rewrite !fmap_cons. f_equal. apply IH.
  rewrite fmap_cons in Hin. apply elem_of_cons in Hin as [Heq|Hin]; [|done].
  cbn [fst] in Heq. congruence.
Qed.

(** Scoring the columns never raises. *)
Lemma score_columns_total df legal_suffixes :
  score_columns df legal_suffixes = Ok (candidates_of df legal_suffixes).
Proof.
  induction df as [|[col values] rest IH]; [done|].
  cbn [score_columns candidates_of].
  rewrite score_phone_fraction, score_company_fraction.
  cbn [mbind result_bind]. by rewrite IH.
Qed.

(** Every candidate is the phone or the company score of a column. *)
Lemma candidates_of_in df legal_suffixes col t q :
  (col, t, q) ∈ candidates_of df legal_suffixes →
  ∃ values,
    (col, values) ∈ df
    ∧ ((t = PhoneNumber ∧ score_phone values = Ok q)
       ∨ (t = CompanyName ∧ score_company values legal_suffixes = Ok q)).
Proof.
  induction df as [|[c values] rest IH]; cbn [candidates_of];
    [intros H; by apply elem_of_nil in H|].
  rewrite !elem_of_cons. intros [[= -> -> ->]|[[= -> -> ->]|Hin]].
  - exists values. split; [by left|]. left. by rewrite score_phone_fraction.
  - exists values. split; [by left|]. right. by rewrite score_company_fraction.
  - destruct (IH Hin) as (vs & Hvs & Hcase). exists vs. split; [by right|done].
Qed.

(** A frame that is not empty has a first candidate, and the choice of
    [main] is one of the candidates. *)
Lemma best_candidate df legal_suffixes :
  Pandas.empty df = false →
  ∃ best,
    max_key snd (candidates_of df legal_suffixes) = Ok best
    ∧ best ∈ candidates_of df legal_suffixes
    ∧ (∀ c, c ∈ candidates_of df legal_suffixes → (c.2 <= best.2)%Q).
Proof.
  intros Hne. destruct df as [|[col values] rest]; [done|].
  cbn [candidates_of max_key]. eexists. split; [reflexivity|].
  match goal with |- context [max_loop snd ?b ?l] =>
    destruct (max_loop_first snd b l) as (l1 & l2 & Heq & Hlt & Hle);
    set (best := max_loop snd b l) in *
  end.
  rewrite Heq. split; [set_solver|].
  intros c Hc. apply elem_of_app in Hc as [Hc|Hc].
  - apply Qlt_le_weak. by apply Hlt.
  - apply elem_of_cons in Hc as [->|Hc]; [apply Qle_refl|by apply Hle].
Qed.

(** The run of [main] on a frame that is not empty, in terms of the
    candidate [max] picks. *)
Lemma main_unfold df legal_suffixes col t q :
  Pandas.empty df = false →
  max_key snd (candidates_of df legal_suffixes) = Ok (col, t, q) →
  main df legal_suffixes
  = if bool_decide (t = PhoneNumber) && Qgt_bool q 0 then
      match get_column df col with
      | None => Raise (Exn KeyError col)
      | Some cells =>
          let parsed := parse_phone_number <$> cells in
          Ok (Report (set_column (set_column df "Country" (parsed.*1))
                        "Number" (parsed.*2)) col t q)
      end
    else if bool_decide (t = CompanyName) && Qgt_bool q 0 then
      match get_column df col with
      | None => Raise (Exn KeyError col)
      | Some cells =>
          let parsed := (λ v, parse_company_name v legal_suffixes) <$> cells in
          Ok (Report (set_column (set_column df "Name" (parsed.*1))
                        "Legal" (parsed.*2)) col t q)
      end
    else Ok (Report df col t q).
Proof.
  intros Hne Hbest. unfold main. rewrite Hne, score_columns_total.
  cbn [mbind result_bind]. rewrite Hbest. cbn [mbind result_bind].
  by repeat case_match.
Qed.

(** C8.  On a frame with zero rows [main] exits with the message
    "Input CSV is empty." and writes no output. *)
Theorem main_rejects_empty (df : DataFrame) (legal_suffixes : list string) :
  n_rows df = 0 →
  main df legal_suffixes = Raise (Exn SystemExit "Input CSV is empty.").
Proof.
  intros Hrows. unfold main, Pandas.empty. rewrite Hrows.
  by rewrite orb_true_r.
Qed.

(** [main_rejects_empty] on a frame of two columns and no row. *)
Lemma main_rejects_empty_witness :
  main [("id", []); ("phone", [])] ["inc"]
  = Raise (Exn SystemExit "Input CSV is empty.").
Proof. apply main_rejects_empty. reflexivity. Defined.

Lemma count_if_blank (pred : string → bool) (values : list string) :
  pred "" = false → (∀ v, v ∈ values → v = "") → count_if pred values = 0.
Proof.
  intros Hpred. induction values as [|v vs IH]; intros Hblank; [done|].
  cbn [count_if]. rewrite (Hblank v) by (by left). rewrite Hpred.
  apply IH. intros w Hw. apply Hblank. by right.
Qed.

Lemma blank_scores_zero values legal_suffixes q :
  (∀ v, v ∈ values → v = "") →
  score_phone values = Ok q ∨ score_company values legal_suffixes = Ok q →
  (q == 0)%Q.
Proof.
  intros Hblank Hq.
  rewrite score_phone_fraction, score_company_fraction in Hq.
  unfold fraction in Hq. rewrite !count_if_blank in Hq by done.
  by destruct Hq as [[= <-]|[= <-]].
Qed.

(** With no positive candidate score, [main] writes the frame it read. *)
Lemma main_no_positive df legal_suffixes :
  Pandas.empty df = false →
  (∀ c, c ∈ candidates_of df legal_suffixes → (c.2 == 0)%Q) →
  ∃ r, main df legal_suffixes = Ok r ∧ out_df r = df ∧ (best_score r == 0)%Q.
Proof.
  intros Hne Hzero.
  destruct (best_candidate df legal_suffixes Hne) as ([[col t] q] & Hbest & Hin & _).
  pose proof (Hzero _ Hin) as Hq. cbn [snd] in Hq.
  rewrite (main_unfold _ _ _ _ _ Hne Hbest).
  assert (Hgt : Qgt_bool q 0 = false) by (apply Qgt_bool_false; lra).
  rewrite Hgt, !andb_false_r. eauto.
Qed.

(** C5.  On a frame that is not empty, when every phone score and every
    company score of a column is 0, as it is when every cell is the
    empty string, [main] parses nothing: it runs to its end and the
    frame it writes is the frame it read. *)
Theorem main_leaves_scoreless_frame (df : DataFrame) (legal_suffixes : list string) :
  Pandas.empty df = false →
  ((∀ col values q,
       (col, values) ∈ df →
       score_phone values = Ok q ∨ score_company values legal_suffixes = Ok q →
       (q == 0)%Q) →
   ∃ r, main df legal_suffixes = Ok r ∧ out_df r = df ∧ (best_score r == 0)%Q)
  ∧ ((∀ col values v, (col, values) ∈ df → v ∈ values → v = "") →
     ∃ r, main df legal_suffixes = Ok r ∧ out_df r = df ∧ (best_score r == 0)%Q).
Proof.
  intros Hne.
  assert (Hmain : (∀ col values q,
                      (col, values) ∈ df →
                      score_phone values = Ok q
                      ∨ score_company values legal_suffixes = Ok q →
                      (q == 0)%Q) →
                  ∃ r, main df legal_suffixes = Ok r ∧ out_df r = df
                       ∧ (best_score r == 0)%Q).
  { intros Hzero. apply main_no_positive; [done|].
    intros [[col t] q] Hin.
    destruct (candidates_of_in _ _ _ _ _ Hin) as (values & Hcol & Hcase).
    apply (Hzero col values q Hcol).
    destruct Hcase as [[_ H]|[_ H]]; [by left|by right]. }
  split; [exact Hmain|].
  intros Hblank. apply Hmain. intros col values q Hcol Hq.
  eapply blank_scores_zero; [|exact Hq]. intros v Hv. by eapply Hblank.
Qed.

(** [main_leaves_scoreless_frame] on a frame of blank cells. *)
Lemma main_leaves_scoreless_frame_witness :
  ∃ r, main [("id", [""; ""]); ("phone", [""; ""])] ["inc"] = Ok r
       ∧ out_df r = [("id", [""; ""]); ("phone", [""; ""])]
       ∧ (best_score r == 0)%Q.
Proof.
  apply (main_leaves_scoreless_frame
           [("id", [""; ""]); ("phone", [""; ""])] ["inc"]); [reflexivity|].
  intros col values v Hcol Hv.
  rewrite !elem_of_cons, elem_of_nil in Hcol.
  destruct Hcol as [[= -> ->]|[[= -> ->]|[]]];
    rewrite !elem_of_cons, elem_of_nil in Hv;
    by destruct Hv as [->|[->|[]]].
Defined.

(** The winner of [main] is a phone or a company candidate of one of
    the columns. *)
Lemma best_shape df legal_suffixes col t q :
  (col, t, q) ∈ candidates_of df legal_suffixes →
  (t = PhoneNumber ∨ t = CompanyName) ∧ ∃ cells, get_column df col = Some cells.
Proof.
  intros Hin.
  destruct (candidates_of_in _ _ _ _ _ Hin) as (values & Hcol & Hcase).
  split; [destruct Hcase as [[-> _]|[-> _]]; auto|]. by eapply get_column_in.
Qed.

Lemma set_two_fresh df n1 n2 c1 c2 :
  n1 ∉ columns df → n2 ∉ columns df → n1 ≠ n2 →
  set_column (set_column df n1 c1) n2 c2 = df ++ [(n1, c1); (n2, c2)].
Proof.
  intros H1 H2 Hne. rewrite (set_column_fresh df n1) by done.
  rewrite set_column_fresh.
  - by rewrite <- app_assoc.
  - unfold columns in *. rewrite fmap_app, elem_of_app. cbn.
    rewrite elem_of_cons, elem_of_nil. intros [?|[?|[]]]; congruence.
Qed.

(** C4, as the code has it.  On a frame that is not empty and has no
    column named as a derived column of the winning type, [main] runs to
    its end and, when the winning score is positive, writes the frame it
    read followed by exactly two columns: Country then Number for a
    phone winner, Name then Legal for a company winner. *)
Theorem main_appends_derived (df : DataFrame) (legal_suffixes : list string) :
  Pandas.empty df = false →
  (∀ r name,
      main df legal_suffixes = Ok r →
      name ∈ derived_names (best_type r) → name ∉ columns df) →
  appends_derived df legal_suffixes.
Proof.
  intros Hne Hfresh. unfold appends_derived.
  destruct (best_candidate df legal_suffixes Hne) as ([[col t] q] & Hbest & Hin & _).
  destruct (best_shape _ _ _ _ _ Hin) as (Ht & cells & Hcells).
  pose proof (main_unfold _ _ _ _ _ Hne Hbest) as Hmain.
  rewrite Hcells in Hmain. cbv zeta in Hmain.
  destruct (Qgt_bool q 0) eqn:Hq.
  - rewrite !andb_true_r in Hmain.
    destruct Ht as [-> | ->];
      [rewrite bool_decide_eq_true_2 in Hmain by done
      |rewrite bool_decide_eq_false_2, bool_decide_eq_true_2 in Hmain by done].
    + eexists. split; [exact Hmain|]. intros _. cbn [out_df best_type].
      eexists (_, _), (_, _). split; [|split; [reflexivity|by left]].
      apply set_two_fresh; [..|done];
        apply (Hfresh _ _ Hmain); cbn; by_eval.
    + eexists. split; [exact Hmain|]. intros _. cbn [out_df best_type].
      eexists (_, _), (_, _). split; [|split; [reflexivity|by right]].
      apply set_two_fresh; [..|done];
        apply (Hfresh _ _ Hmain); cbn; by_eval.
  - rewrite !andb_false_r in Hmain. eexists. split; [exact Hmain|].
    cbn [best_score]. intros Hpos. apply Qgt_bool_false in Hq. exfalso. lra.
Qed.

(** [main_appends_derived] on a frame of an id and a phone column. *)
Lemma main_appends_derived_witness :
  appends_derived
    [("id", ["1"; "2"]); ("phone", ["+14155552671"; "+442079460958"])] ["inc"].
Proof.
  apply main_appends_derived; [reflexivity|].
  intros r name Hr. vm_compute in Hr. injection Hr as <-.
  cbn [best_type derived_names]. rewrite !elem_of_cons, elem_of_nil.
  intros [->|[->|[]]]; by_eval.
Defined.

(** The claim fails on a frame that has a column named as a derived
    column: the assignment replaces the cells of that column where it
    stands, so here the company names are lost and one column only is
    added. *)
Lemma main_overwrites_named_column :
  main [("Name", ["Acme Widgets, Inc."])] ["inc"]
  = Ok (Report [("Name", ["Acme Widgets"]); ("Legal", ["Inc"])]
          "Name" CompanyName 1)
  ∧ ¬ appends_derived [("Name", ["Acme Widgets, Inc."])] ["inc"].
Proof.
  split; [reflexivity|].
  intros (r & Hr & Happ). vm_compute in Hr. injection Hr as <-.
  destruct Happ as (first & second & Hout & _); [reflexivity|].
  cbn in Hout. discriminate.
Qed.

End ParseSpec.

(* ================================================================== *)
(** * The dispatcher of mcp_server/server.py *)
(* ================================================================== *)

Module ServerSpec.
Import Py Server PyFacts.

Section Dispatch.
Variable w : world.

(** A request whose tool is none of the known names, and can be
    hashed, is answered with an error that carries its id. *)
Lemma handle_request_unknown_tool (items : list (string * pyval)) (name : string) :
  items_get items "tool" = Some (PStr name) →
  name ∉ ["list_tools"; "list_files"; "column_prediction"; "parse_file"] →
  handle_request w (PDict items)
  = Ok (error_response (default PNone (items_get items "id"))
          ("Unknown tool: " +:+ py_str w (PStr name))).
Proof.
  intros Htool Hname. unfold handle_request. cbn [get mbind result_bind].
  rewrite Htool. cbn [default from_option id eq_str].
  rewrite !not_elem_of_cons in Hname.
  destruct Hname as (H0 & H1 & H2 & H3 & _).
  destruct (String.eqb_spec name "list_tools") as [?|_]; [done|].
  cbn [lookup_key TOOLS items_get mbind result_bind].
  destruct (String.eqb_spec "list_files" name) as [?|_]; [congruence|].
  destruct (String.eqb_spec "column_prediction" name) as [?|_]; [congruence|].
  destruct (String.eqb_spec "parse_file" name) as [?|_]; [congruence|].
  reflexivity.
Qed.

(** An [Exception] raised by a tool is answered with an error that
    carries the id and the message. *)
Lemma handle_request_tool_raises (items : list (string * pyval)) (name : string)
    (tool_fn : pyval → result pyval) (e : exn) :
  items_get items "tool" = Some (PStr name) →
  name ≠ "list_tools" →
  items_get (TOOLS w) name = Some tool_fn →
  (∀ args, tool_fn args = Raise e) →
  is_Exception (exn_kind e) = true →
  handle_request w (PDict items)
  = Ok (error_response (default PNone (items_get items "id")) (exn_msg e)).
Proof.
  intros Htool Hname Hfn Hraise Hexc.
  unfold handle_request. cbn [get mbind result_bind].
  rewrite Htool. cbn [default from_option id eq_str].
  destruct (String.eqb_spec name "list_tools") as [?|_]; [done|].
  cbn [lookup_key]. rewrite Hfn. cbn [mbind result_bind].
  by rewrite Hraise, Hexc.
Qed.

(** A line that is not JSON is answered with an error and the loop
    goes on with the next line. *)
Lemma main_invalid_json (line : string) (rest : list string) (msg : string) :
  is_empty (strip line) = false →
  json_loads w (strip line) = Raise (Exn JSONDecodeError msg) →
  main w (line :: rest)
  = (error_response PNone ("Invalid JSON: " +:+ msg) :: (main w rest).1,
     (main w rest).2).
Proof.
  intros Hline Hjson. cbn [main]. rewrite Hline, Hjson. cbn [exn_kind exn_msg].
  by destruct (main w rest).
Qed.

(** C9 fails on the code.  A request object whose [tool] is a JSON
    array makes [handle_request] raise [TypeError]: the membership
    test in [TOOLS] hashes the tool name outside the [try] block.
    The exception leaves [main], which ends the loop: the line gets
    no response and the lines after it are not read. *)
Theorem handle_request_unhashable_tool :
  handle_request w (PDict [("id", PInt 1); ("tool", PList [])])
  = Raise (Exn TypeError "unhashable type: 'list'")
  ∧ ∀ line rest,
      is_empty (strip line) = false →
      json_loads w (strip line) = Ok (PDict [("id", PInt 1); ("tool", PList [])]) →
      main w (line :: rest) = ([], Some (Exn TypeError "unhashable type: 'list'")).
Proof.
  split; [reflexivity|].
  intros line rest Hline Hjson. cbn [main]. by rewrite Hline, Hjson.
Qed.

(** A request that is not a JSON object has no [get]. *)
Lemma handle_request_not_object (req : pyval) :
  (∀ items, req ≠ PDict items) →
  handle_request w req
  = Raise (Exn AttributeError
             ("'" +:+ type_name req +:+ "' object has no attribute 'get'")).
Proof. intros Hreq. destruct req; try done. by destruct (Hreq items). Qed.

End Dispatch.

(** [handle_request_unhashable_tool] in a sample world: the second
    line, a valid [list_tools] request, is never answered. *)
Lemma handle_request_unhashable_tool_witness :
  main ServerSamples.sample_world
    [ServerSamples.array_tool_line; ServerSamples.list_tools_line]
  = ([], Some (Exn TypeError "unhashable type: 'list'")).
Proof.
  apply (proj2 (handle_request_unhashable_tool ServerSamples.sample_world));
    reflexivity.
Defined.

End ServerSpec.

(* ================================================================== *)
(** * The resource loaders *)
(* ================================================================== *)

Module LoaderSpec.
Import Py Loader PyFacts Spec Notions.

Lemma insert_by_len_perm x l : insert_by_len x l ≡ₚ x :: l.
Proof.
  induction l as [|y l IH]; cbn [insert_by_len]; [done|].
  destruct (String.length x <? String.length y); [|done].
  rewrite IH. apply perm_swap.
Qed.

Lemma sort_by_len_desc_perm l : sort_by_len_desc l ≡ₚ l.
Proof.
  induction l as [|x l IH]; [done|].
  cbn [sort_by_len_desc foldr]. rewrite insert_by_len_perm.
  by apply perm_skip.
Qed.

Lemma insert_by_len_sorted x l :
  StronglySorted no_shorter l → StronglySorted no_shorter (insert_by_len x l).
Proof.
  induction l as [|y l IH]; intros Hl; cbn [insert_by_len].
  - by repeat constructor.
  - apply StronglySorted_cons in Hl as [Hy Hl].
    destruct (String.length x <? String.length y) eqn:Hcmp.
    + apply Nat.ltb_lt in Hcmp. apply StronglySorted_cons. split; [|by apply IH].
      rewrite insert_by_len_perm. constructor; [|done].
      unfold no_shorter. lia.
    + apply Nat.ltb_ge in Hcmp. apply StronglySorted_cons. split.
      * constructor; [done|].
        eapply Forall_impl; [exact Hy|]. unfold no_shorter. intros z Hz. lia.
      * by apply StronglySorted_cons.
Qed.

Lemma sort_by_len_desc_sorted l : StronglySorted no_shorter (sort_by_len_desc l).
Proof.
  induction l as [|x l IH]; [constructor|].
  cbn [sort_by_len_desc foldr]. by apply insert_by_len_sorted.
Qed.

Lemma of_length_insert n x l :
  of_length n (insert_by_len x l) = of_length n (x :: l).
Proof.
  unfold of_length. induction l as [|y l IH]; cbn [insert_by_len]; [done|].
  destruct (String.length x <? String.length y) eqn:Hcmp; [|done].
  apply Nat.ltb_lt in Hcmp. cbn [List.filter] in *. rewrite IH.
  destruct (String.length x =? n) eqn:Hx; [|done].
  apply Nat.eqb_eq in Hx.
  by rewrite (proj2 (Nat.eqb_neq (String.length y) n)) by lia.
Qed.

Lemma of_length_sort n l : of_length n (sort_by_len_desc l) = of_length n l.
Proof.
  induction l as [|x l IH]; [done|].
  cbn [sort_by_len_desc foldr]. rewrite of_length_insert.
  unfold of_length in *. cbn [List.filter]. fold (sort_by_len_desc l).
  by rewrite IH.
Qed.

Lemma collect_suffixes_elem entry lines :
  entry ∈ collect_suffixes lines ↔ ∃ line, line ∈ lines ∧ suffix_entry line entry.
Proof.
  unfold suffix_entry. induction lines as [|line lines IH]; cbn [collect_suffixes].
  - split; [by intros ?%elem_of_nil|]. by intros (? & ?%elem_of_nil & _).
  - destruct (is_empty (lower (strip line))) eqn:He; cbn [orb];
      [|destruct (startswith "#" (lower (strip line))) eqn:Hc].
    + rewrite IH. split.
      * intros (l & Hl & H). exists l. split; [by right|done].
      * intros (l & Hl & -> & Hne & Hc). apply elem_of_cons in Hl as [->|Hl].
        -- by destruct (lower (strip line)).
        -- eauto.
    + rewrite IH. split.
      * intros (l & Hl & H). exists l. split; [by right|done].
      * intros (l & Hl & -> & Hne & Hc'). apply elem_of_cons in Hl as [->|Hl];
          [congruence|eauto].
    + rewrite elem_of_cons, IH. split.
      * intros [->|(l & Hl & H)].
        -- exists line. split; [by left|]. split; [done|]. split; [|done].
           by destruct (lower (strip line)).
        -- exists l. split; [by right|done].
      * intros (l & Hl & -> & Hne & Hc'). apply elem_of_cons in Hl as [->|Hl];
          [by left|right; eauto].
Qed.

(** X1.  [load_legal_suffixes] returns its entries longest first; the
    entries are the lines of the file, stripped and lowercased, that are
    then neither empty nor start with [#]; a missing file gives no entry. *)
Theorem load_legal_suffixes_sorted (file : text_file) :
  StronglySorted no_shorter (load_legal_suffixes file)
  ∧ (∀ entry,
        entry ∈ load_legal_suffixes file
        ↔ ∃ lines line,
            file = Some lines ∧ line ∈ lines ∧ suffix_entry line entry).
Proof.
  destruct file as [lines|]; cbn [load_legal_suffixes].
  - split; [apply sort_by_len_desc_sorted|]. intros entry.
    rewrite sort_by_len_desc_perm, collect_suffixes_elem. split.
    + intros (line & Hline & H). eauto.
    + intros (lines' & line & [= <-] & Hline & H). eauto.
  - split; [constructor|]. intros entry. split; [by intros ?%elem_of_nil|].
    by intros (? & ? & ? & _).
Qed.

(** X2.  The sort of [load_legal_suffixes] is stable and loses nothing:
    the entries of any one length come out in the order of the file, and
    each entry comes out as often as the file has it. *)
Theorem load_legal_suffixes_stable (lines : list string) :
  load_legal_suffixes (Some lines) ≡ₚ collect_suffixes lines
  ∧ ∀ n, of_length n (load_legal_suffixes (Some lines))
         = of_length n (collect_suffixes lines).
Proof.
  cbn [load_legal_suffixes]. split; [apply sort_by_len_desc_perm|].
  intros n. apply of_length_sort.
Qed.

(** X3.  [load_countries] holds exactly the lines of the file that are
    not blank, stripped and lowercased; a missing file gives the empty
    set. *)
Theorem load_countries_elem (file : text_file) (name : string) :
  name ∈ load_countries file
  ↔ ∃ lines line,
      file = Some lines ∧ line ∈ lines ∧ strip line ≠ ""
      ∧ name = lower (strip line).
Proof.
  destruct file as [lines|]; cbn [load_countries].
  - rewrite elem_of_list_to_set, list_elem_of_fmap. split.
    + intros (line & -> & Hline). apply list_elem_of_In, filter_In in Hline.
      destruct Hline as [Hline Hne]. exists lines, line.
      split; [done|]. split; [by apply list_elem_of_In|]. split; [|done].
      intros He. by rewrite He in Hne.
    + intros (lines' & line & [= <-] & Hline & Hne & ->). exists line.
      split; [done|]. apply list_elem_of_In, filter_In.
      split; [by apply list_elem_of_In|]. by destruct (strip line).
  - split; [by intros ?%not_elem_of_empty|]. by intros (? & ? & ? & _).
Qed.

End LoaderSpec.

(* ================================================================== *)
(** * More on phone numbers *)
(* ================================================================== *)

Module PhoneFacts.
Import Py Predict Parser PyFacts Spec Notions PhoneSpec.

Lemma digit_not_plus c : isdigit c = true → Ascii.eqb "+" c = false.
Proof. destruct c as [[] [] [] [] [] [] [] []]; vm_compute; congruence. Qed.

Lemma digit_not_space c : isdigit c = true → isspace c = false.
Proof.
  intros Hd. destruct (isspace c) eqn:Hs; [|done].
  apply space_not_digit in Hs. congruence.
Qed.

Lemma str_take_drop n s : str_take n s +:+ str_drop n s = s.
Proof.
  revert s. induction n as [|n IH]; intros [|c t]; try done.
  cbn [str_take str_drop]. change (String c (str_take n t) +:+ str_drop n t)
    with (String c (str_take n t +:+ str_drop n t)).
  f_equal. apply IH.
Qed.

Lemma str_length_app a b :
  String.length (a +:+ b) = String.length a + String.length b.
Proof. induction a as [|c a IH]; [done|]. cbn. by rewrite <- IH. Qed.

Lemma all_chars_filter p s : all_chars p (str_filter p s) = true.
Proof.
  induction s as [|c t IH]; [done|]. cbn [str_filter].
  destruct (p c) eqn:Hp; [|done]. cbn [all_chars]. by rewrite Hp.
Qed.


Lemma filter_all p s : all_chars p s = true → str_filter p s = s.
Proof.
  induction s as [|c t IH]; [done|]. cbn.
  intros [-> Ht]%andb_true_iff. by rewrite IH.
Qed.

Lemma lstrip_none (p q : ascii → bool) s :
  (∀ c, p c = true → q c = false) → all_chars p s = true → lstrip_by q s = s.
Proof.
  intros Hpq. destruct s as [|c t]; [done|]. cbn.
  intros [Hc _]%andb_true_iff. by rewrite (Hpq c Hc).
Qed.

Lemma rstrip_none (p q : ascii → bool) s :
  (∀ c, p c = true → q c = false) → all_chars p s = true → rstrip_by q s = s.
Proof.
  intros Hpq. induction s as [|c t IH]; [done|]. cbn [all_chars rstrip_by].
  intros [Hc Ht]%andb_true_iff. rewrite (IH Ht).
  destruct t; [|done]. by rewrite (Hpq c Hc).
Qed.

(** On a string of digits, stripping does nothing. *)
Lemma strip_digits d : all_chars isdigit d = true → strip d = d.
Proof.
  intros Hd. unfold strip, strip_by.
  rewrite (lstrip_none isdigit) by auto using digit_not_space.
  apply (rstrip_none isdigit); auto using digit_not_space.
Qed.

Lemma try_dial_codes_some digits lengths country rest :
  try_dial_codes digits lengths = Some (country, rest) →
  ∃ len, len ∈ lengths ∧ dial_prefix digits len country
         ∧ rest = str_drop len digits.
Proof.
  induction lengths as [|len lengths IH]; cbn [try_dial_codes]; [done|].
  destruct (len <=? String.length digits) eqn:Hlen.
  - destruct (DIAL_CODE_TO_COUNTRY !! str_take len digits) as [c|] eqn:Hc.
    + intros [= <- <-]. exists len. split; [by left|]. split; [|done].
      split; [by apply Nat.leb_le|]. by apply dial_lookup.
    + intros H. destruct (IH H) as (l & Hl & Hrest). exists l.
      split; [by right|done].
  - intros H. destruct (IH H) as (l & Hl & Hrest). exists l.
    split; [by right|done].
Qed.

(** The shape of every result: the digits, or the digits after a dial
    code of the table. *)
Lemma parse_phone_number_shape raw :
  ∃ code,
    digits_of raw = code +:+ (parse_phone_number raw).2
    ∧ (((parse_phone_number raw).1 = "" ∧ code = "")
       ∨ (code, (parse_phone_number raw).1) ∈ dial_codes).
Proof.
  destruct (digits_of raw) as [|c t] eqn:Hd.
  { rewrite parse_no_digits by done. exists "". auto. }
  rewrite parse_with_digits by (rewrite Hd; done). rewrite Hd.
  destruct (startswith "+" (strip raw)); [|exists ""; auto].
  destruct (try_dial_codes (String c t) [3; 2; 1]) as [[country rest]|] eqn:Htry;
    [|exists ""; auto].
  destruct (try_dial_codes_some _ _ _ _ Htry) as (len & _ & [_ Hin] & ->).
  exists (str_take len (String c t)). cbn [fst snd].
  split; [by rewrite str_take_drop|by right].
Qed.

Lemma phone_like_iff (s : string) :
  looks_like_phone s = true ↔ 7 ≤ String.length (digits_of s) ≤ 15.
Proof.
  unfold looks_like_phone. rewrite digits_strip.
  destruct (is_empty (strip s)) eqn:He.
  - assert (Hd : digits_of s = "").
    { rewrite <- digits_strip. by destruct (strip s). }
    rewrite Hd. cbn. split; [done|lia].
  - rewrite andb_true_iff, !Nat.leb_le. done.
Qed.

(** X4.  [looks_like_phone] holds exactly when the value has between 7
    and 15 digits, whatever else it contains. *)
Theorem looks_like_phone_digits (s : string) :
  looks_like_phone s = true
  ↔ 7 ≤ String.length (digits_of s) ≤ 15.
Proof. apply phone_like_iff. Qed.

(** X5.  [parse_phone_number] loses no digit: the digits of the input
    are the Number, preceded by the dial code of the Country when there
    is one; the Country is empty or one of the table. *)
Theorem parse_phone_number_digits (raw : string) :
  ∃ code,
    digits_of raw = code +:+ (parse_phone_number raw).2
    ∧ (((parse_phone_number raw).1 = "" ∧ code = "")
       ∨ (code, (parse_phone_number raw).1) ∈ dial_codes).
Proof. apply parse_phone_number_shape. Qed.

Lemma number_all_digits raw :
  all_chars isdigit (parse_phone_number raw).2 = true.
Proof.
  destruct (parse_phone_number_shape raw) as (code & Hd & _).
  pose proof (all_chars_filter isdigit raw) as Hall.
  fold (digits_of raw) in Hall. rewrite Hd in Hall. clear Hd.
  induction code as [|c code IH]; [done|].
  cbn in Hall. apply andb_true_iff in Hall as [_ Hall]. by apply IH.
Qed.

(** X6.  The Number is made of digits only, and parsing it again gives
    it back with no Country. *)
Theorem parse_phone_number_again (raw : string) :
  let number := (parse_phone_number raw).2 in
  all_chars isdigit number = true
  ∧ parse_phone_number number = ("", number).
Proof.
  intros number. pose proof (number_all_digits raw) as Hall. fold number in Hall.
  split; [done|]. unfold parse_phone_number.
  rewrite (strip_digits _ Hall), (filter_all _ _ Hall).
  destruct number as [|c t]; [done|]. cbn [is_empty startswith].
  cbn in Hall. apply andb_true_iff in Hall as [Hc _].
  by rewrite (digit_not_plus c Hc).
Qed.

(** X7.  A value that looks like a phone number always gets a Number of
    at least five digits. *)
Theorem phone_like_keeps_digits (raw : string) :
  looks_like_phone raw = true →
  5 ≤ String.length (parse_phone_number raw).2.
Proof.
  intros Hphone%phone_like_iff.
  destruct (parse_phone_number_shape raw) as (code & Hd & Hcode).
  rewrite Hd, str_length_app in Hphone.
  assert (String.length code ≤ 2); [|lia].
  destruct Hcode as [[_ ->]|Hin]; [cbn; lia|].
  unfold dial_codes in Hin. rewrite !elem_of_cons, elem_of_nil in Hin.
  destruct Hin as [[= -> _]|[[= -> _]|[[= -> _]|[]]]]; cbn; lia.
Qed.

(** [phone_like_keeps_digits] on a British number. *)
Lemma phone_like_keeps_digits_witness :
  5 ≤ String.length (parse_phone_number "+44 20 7946 0958").2.
Proof. apply phone_like_keeps_digits. reflexivity. Defined.

End PhoneFacts.

(* ================================================================== *)
(** * More on company names *)
(* ================================================================== *)

Module CompanyFacts.
Import Py Predict Parser Loader PyFacts Spec Notions CompanySpec PhoneFacts.

Lemma occurs_in_search suf s :
  occurs_in suf s ↔ re_search_word suf s ≠ None.
Proof.
  split.
  - intros [i Hi] Hnone. by apply (re_search_word_none_sound _ _ Hnone i).
  - destruct (re_search_word suf s) as [i|] eqn:Hs; [|done].
    intros _. exists i. by apply re_search_word_sound.
Qed.

(** What the loop over the suffixes can return. *)
Lemma split_at_suffix_cases s low suffixes :
  (split_at_suffix s low suffixes = (s, "")
   ∧ ∀ suf, suf ∈ suffixes → re_search_word suf low = None)
  ∨ ∃ suf i,
      suf ∈ suffixes ∧ re_search_word suf low = Some i
      ∧ split_at_suffix s low suffixes
        = (strip_chars " ,.-" (str_take i s), strip_chars " ,.-" (str_drop i s)).
Proof.
  induction suffixes as [|suf rest IH]; cbn [split_at_suffix].
  - left. split; [done|]. by intros ? ?%elem_of_nil.
  - destruct (re_search_word suf low) as [i|] eqn:Hs.
    + right. exists suf, i. split; [by left|done].
    + destruct IH as [[Heq Hnone]|(suf' & i & Hin & Hs' & Heq)].
      * left. split; [done|]. intros x [->|Hx]%elem_of_cons; auto.
      * right. exists suf', i. split; [by right|done].
Qed.





Lemma lstrip_head p s c : str_head (lstrip_by p s) = Some c → p c = false.
Proof.
  induction s as [|d t IH]; [done|]. cbn [lstrip_by].
  destruct (p d) eqn:Hd; [done|]. by intros [= <-].
Qed.

Lemma rstrip_head p s c :
  str_head (rstrip_by p s) = Some c → str_head s = Some c.
Proof.
  destruct s as [|d t]; [done|]. cbn [rstrip_by].
  destruct (rstrip_by p t); [destruct (p d)|]; done.
Qed.

Lemma rstrip_last p s c : str_last (rstrip_by p s) = Some c → p c = false.
Proof.
  induction s as [|d t IH]; [done|]. cbn [rstrip_by].
  destruct (rstrip_by p t) as [|e t'] eqn:Ht.
  - destruct (p d) eqn:Hd; [done|]. by intros [= <-].
  - exact IH.
Qed.

Lemma strip_chars_trimmed chars s : trimmed_of chars (strip_chars chars s).
Proof.
  unfold trimmed_of, strip_chars, strip_by. split; intros c Hc.
  - apply rstrip_head in Hc. by apply lstrip_head in Hc.
  - by apply rstrip_last in Hc.
Qed.

Lemma StronglySorted_lookup {A} (R : A → A → Prop) (l : list A) j k a b :
  StronglySorted R l → j < k → l !! j = Some a → l !! k = Some b → R a b.
Proof.
  intros Hl. revert j k. induction Hl as [|x l Hl IH Hx]; intros j k Hjk Hj Hk.
  - by rewrite lookup_nil in Hj.
  - destruct k as [|k]; [lia|]. destruct j as [|j]; cbn in Hj, Hk.
    + injection Hj as <-. rewrite Forall_forall in Hx. apply Hx.
      by eapply list_elem_of_lookup_2.
    + apply (IH j k); [lia|done..].
Qed.

(** X8.  When no suffix of the list occurs in the value as a whole word,
    and so for an empty list or a blank value, [parse_company_name]
    returns the stripped value and an empty Legal. *)
Theorem parse_company_name_no_match (raw : string) (suffixes : list string) :
  (∀ suf, suf ∈ suffixes → ¬ occurs_in suf (lower (strip raw))) →
  parse_company_name raw suffixes = (strip raw, "").
Proof.
  intros Hnone. unfold parse_company_name.
  destruct (strip raw) as [|c t] eqn:Hs; [done|]. cbn [is_empty].
  destruct (split_at_suffix_cases (String c t) (lower (String c t)) suffixes)
    as [[Heq _]|(suf & i & Hin & Hfound & _)]; [done|].
  destruct (Hnone suf Hin). apply occurs_in_search. congruence.
Qed.

(** [parse_company_name_no_match] on a name without legal form. *)
Lemma parse_company_name_no_match_witness :
  parse_company_name " Standalone Name " ["inc"; "ltd"] = ("Standalone Name", "").
Proof.
  apply (parse_company_name_no_match " Standalone Name " ["inc"; "ltd"]).
  intros suf Hsuf. rewrite occurs_in_search.
  rewrite !elem_of_cons, elem_of_nil in Hsuf.
  destruct Hsuf as [->|[->|[]]]; intros H; by apply H.
Defined.



(** X10.  The Legal part never starts or ends with a space, a comma, a
    period or a hyphen, and when it is not empty neither does the
    Name. *)
Theorem parse_company_name_trimmed (raw : string) (suffixes : list string) :
  let r := parse_company_name raw suffixes in
  trimmed_of " ,.-" r.2 ∧ (r.2 ≠ "" → trimmed_of " ,.-" r.1).
Proof.
  unfold parse_company_name.
  destruct (is_empty (strip raw)); [by split|].
  destruct (split_at_suffix_cases (strip raw) (lower (strip raw)) suffixes)
    as [[-> _]|(suf & i & _ & _ & ->)]; cbn [fst snd].
  - by split.
  - split; [|intros _]; apply strip_chars_trimmed.
Qed.

(** X11.  With the suffixes of [load_legal_suffixes], the suffix at which
    [parse_company_name] splits, the first of the list that occurs, is a
    longest of those that occur. *)
Theorem first_occurring_is_longest (file : text_file) (low : string)
    (k : nat) (suf : string) :
  let suffixes := load_legal_suffixes file in
  suffixes !! k = Some suf →
  (∀ j suf', j < k → suffixes !! j = Some suf' → ¬ occurs_in suf' low) →
  ∀ suf', suf' ∈ suffixes → occurs_in suf' low →
          String.length suf' ≤ String.length suf.
Proof.
  intros suffixes Hk Hearlier suf' Hin Hocc.
  apply list_elem_of_lookup_1 in Hin as [j Hj].
  destruct (Nat.lt_trichotomy j k) as [Hlt|[->|Hgt]].
  - by destruct (Hearlier j suf' Hlt Hj).
  - rewrite Hk in Hj. by injection Hj as <-.
  - assert (Hsorted : StronglySorted no_shorter suffixes).
    { destruct file as [lines|]; [apply LoaderSpec.sort_by_len_desc_sorted|].
      constructor. }
    apply (StronglySorted_lookup _ _ _ _ _ _ Hsorted Hgt Hk Hj).
Qed.

(** [first_occurring_is_longest] on a file that lists [co] before
    [co., ltd]. *)
Lemma first_occurring_is_longest_witness :
  String.length "co" ≤ String.length "co., ltd".
Proof.
  apply (first_occurring_is_longest (Some ["co"; "Co., Ltd"; "# note"])
           "acme co., ltd." 0 "co., ltd").
  - reflexivity.
  - intros j suf' Hj. lia.
  - by_eval.
  - apply occurs_in_search. vm_compute. discriminate.
Defined.

(** X12.  Whenever [parse_company_name] finds a Legal part, the value
    counts as a company for [looks_like_company], under the same
    suffixes. *)
Theorem legal_part_looks_like_company (raw : string) (suffixes : list string) :
  (parse_company_name raw suffixes).2 ≠ "" →
  looks_like_company raw suffixes = true.
Proof.
  unfold parse_company_name, looks_like_company.
  destruct (is_empty (strip raw)); [done|].
  destruct (split_at_suffix_cases (strip raw) (lower (strip raw)) suffixes)
    as [[-> _]|(suf & i & Hin & Hfound & _)]; [done|].
  intros _.
  assert (Hex : existsb (λ suf, bool_decide (is_Some (re_search_word suf (lower (strip raw)))))
                  suffixes = true).
  { apply existsb_exists. exists suf. split; [by apply list_elem_of_In|].
    rewrite Hfound. by apply bool_decide_eq_true_2. }
  by rewrite Hex.
Qed.

(** [legal_part_looks_like_company] on a German company. *)
Lemma legal_part_looks_like_company_witness :
  looks_like_company "Globex GmbH & Co. KG" ["gmbh"] = true.
Proof.
  apply legal_part_looks_like_company. vm_compute. discriminate.
Defined.

End CompanyFacts.

(* ================================================================== *)
(** * More on the scorers and on the classifier *)
(* ================================================================== *)

Module ScoreFacts.
Import Py Pandas Predict PyFacts Spec Notions ScorerSpec PolicySpec.

Lemma known_le countries_set vs : length (known countries_set vs) ≤ length vs.
Proof.
  unfold known. induction vs as [|v vs IH]; [done|]. cbn [List.filter].
  destruct (bool_decide _); cbn [length]; lia.
Qed.

(** [score_country] in terms of the values it considers. *)
Lemma score_country_counts values countries_set :
  score_country values countries_set
  = if bool_decide (countries_set = ∅) then Ok 0%Q
    else match length (normalised values) with
         | 0 => Ok 0%Q
         | S n => Ok (Z.of_nat (length (known countries_set (normalised values)))
                        # Pos.of_nat (S n))
         end.
Proof.
  unfold score_country. destruct (bool_decide _); [done|].
  rewrite country_loop. cbn [Nat.add]. by destruct (length (normalised values)).
Qed.

Lemma lower_empty s : is_empty (lower s) = is_empty s.
Proof. by destruct s. Qed.

Lemma normalised_without_blanks values :
  normalised (List.filter (λ v, negb (is_empty (strip v))) values)
  = normalised values.
Proof.
  unfold normalised. induction values as [|v values IH]; [done|].
  cbn [List.filter fmap list_fmap].
  destruct (is_empty (strip v)) eqn:Hv; cbn [negb fmap list_fmap List.filter].
  - rewrite lower_empty, Hv. cbn [negb]. exact IH.
  - rewrite lower_empty, Hv. cbn [negb]. f_equal. exact IH.
Qed.

Lemma normalised_blank values :
  (∀ v, v ∈ values → blank v) → normalised values = [].
Proof.
  unfold normalised, blank. induction values as [|v values IH]; intros Hb; [done|].
  cbn [fmap list_fmap List.filter].
  rewrite (Hb v) by (by left). cbn. apply IH. intros w Hw. apply Hb. by right.
Qed.

Lemma count_if_none {A} (p : A → bool) (l : list A) :
  (∀ x, x ∈ l → p x = false) → count_if p l = 0.
Proof.
  induction l as [|x l IH]; intros Hp; [done|]. cbn [count_if].
  rewrite (Hp x) by (by left). apply IH. intros y Hy. apply Hp. by right.
Qed.

Lemma blank_not_phone v : blank v → looks_like_phone v = false.
Proof. unfold blank, looks_like_phone. by intros ->. Qed.

Lemma blank_not_date dateutil_parses v :
  blank v → is_parsable_date dateutil_parses v = false.
Proof. unfold blank, is_parsable_date. by intros ->. Qed.

Lemma blank_not_company v legal_suffixes :
  blank v → looks_like_company v legal_suffixes = false.
Proof. unfold blank, looks_like_company. by intros ->. Qed.

Lemma count_if_app {A} (p : A → bool) (l k : list A) :
  count_if p (l ++ k) = count_if p l + count_if p k.
Proof. induction l as [|x l IH]; [done|]. cbn. rewrite IH. lia. Qed.

(** One more value that does not match lowers a fraction, or leaves it
    at 0. *)
Lemma fraction_dilutes (pred : string → bool) (values : list string) (v : string) :
  pred v = false →
  (fraction pred (values ++ [v]) <= fraction pred values)%Q.
Proof.
  intros Hv. unfold fraction. rewrite count_if_app, length_app.
  cbn [count_if length]. rewrite Hv, !Nat.add_0_r.
  unfold Qle. cbn [Qnum Qden].
  rewrite <- !(positive_nat_Z (Pos.of_nat _)), !Nat2Pos.id by lia. nia.
Qed.

Lemma fraction_all (pred : string → bool) (values : list string) :
  values ≠ [] → (∀ v, v ∈ values → pred v = true) →
  (fraction pred values == 1)%Q.
Proof.
  intros Hne Hall.
  assert (Hcount : count_if pred values = length values).
  { clear Hne. induction values as [|v values IH]; [done|]. cbn [count_if length].
    rewrite (Hall v) by (by left). rewrite IH; [done|].
    intros w Hw. apply Hall. by right. }
  unfold fraction. rewrite Hcount. destruct values as [|v values]; [done|].
  cbn [length]. rewrite Nat.max_l by lia.
  unfold Qeq. cbn [Qnum Qden].
  rewrite <- !(positive_nat_Z (Pos.of_nat _)), !Nat2Pos.id by lia. lia.
Qed.

(** X13.  [score_country] never raises and its score lies in [0, 1]. *)
Theorem score_country_unit (values : list string) (countries_set : gset string) :
  ∃ q, score_country values countries_set = Ok q ∧ (0 <= q <= 1)%Q.
Proof.
  rewrite score_country_counts. destruct (bool_decide _); [by exists 0%Q|].
  destruct (length (normalised values)) as [|n] eqn:Hn; [by exists 0%Q|].
  eexists. split; [reflexivity|]. apply ratio_unit; [|lia].
  rewrite <- Hn. apply known_le.
Qed.

(** X14.  Blank values do not weigh on [score_country]: leaving them out
    of the column changes nothing. *)
Theorem score_country_skips_blanks (values : list string)
    (countries_set : gset string) :
  score_country (List.filter (λ v, negb (is_empty (strip v))) values) countries_set
  = score_country values countries_set.
Proof. by rewrite !score_country_counts, normalised_without_blanks. Qed.

Section Classifier.
Variable dateutil_parses : string → bool.

(** X15.  A column of blank values, and so the empty column, is
    classified Other, whatever the resources. *)
Theorem classify_blank_column (values : list string) (countries : gset string)
    (legal_suffixes : list string) :
  (∀ v, v ∈ values → blank v) →
  classify dateutil_parses values countries legal_suffixes = Ok Other.
Proof.
  intros Hblank. unfold classify, compute_scores.
  rewrite score_phone_fraction, (score_date_fraction dateutil_parses),
    score_country_counts, score_company_fraction.
  rewrite (normalised_blank _ Hblank). cbn [length].
  unfold fraction.
  rewrite !count_if_none
    by (intros v Hv;
        first [apply blank_not_phone | apply blank_not_date
              | apply blank_not_company]; auto).
  set (zero := (Z.of_nat 0 # Pos.of_nat (length values `max` 1))%Q).
  assert (Hz : (zero == 0)%Q) by done.
  assert (Hc : ∃ c, (if bool_decide (countries = ∅) then Ok 0%Q else Ok 0%Q)
                    = Ok c ∧ (c == 0)%Q).
  { exists 0%Q. by destruct (bool_decide _). }
  destruct Hc as (c & -> & Hc). cbn [mbind result_bind mret result_ret].
  destruct (pick_label_policy
              {| phone := zero; date := zero; country := c; company := zero |})
    as (l & Hl & _ & _ & _ & Harg).
  cbn [phone date country company] in *. rewrite Hl. f_equal.
  destruct Harg as (k & _ & Hother & _); [rewrite Hz; done..|rewrite Hc; done|].
  apply Hother. destruct k; cbn [score_of phone date country company];
    rewrite ?Hz, ?Hc; done.
Qed.

(** X26.  A column that is not empty and all of whose values look like
    phone numbers is classified PhoneNumber, whatever the resources. *)
Theorem classify_phone_column (values : list string) (countries : gset string)
    (legal_suffixes : list string) :
  values ≠ [] →
  (∀ v, v ∈ values → looks_like_phone v = true) →
  classify dateutil_parses values countries legal_suffixes = Ok PhoneNumber.
Proof.
  intros Hne Hall. unfold classify, compute_scores.
  destruct (score_country_total values countries) as [c Hc].
  rewrite score_phone_fraction, (score_date_fraction dateutil_parses), Hc,
    score_company_fraction.
  cbn [mbind result_bind mret result_ret].
  pose proof (fraction_all looks_like_phone values Hne Hall) as Hone.
  set (sp := fraction looks_like_phone values) in *.
  set (sd := fraction (is_parsable_date dateutil_parses) values).
  set (sco := fraction (λ v, looks_like_company v legal_suffixes) values).
  destruct (pick_label_policy
              {| phone := sp; date := sd; country := c; company := sco |})
    as (l & Hl & Hphone & _).
  cbn [phone date country company] in *. rewrite Hl. f_equal.
  apply Hphone. rewrite Hone. done.
Qed.

(** X27.  The three fraction scorers count every value in the
    denominator: one more blank value never raises their score. *)
Theorem blank_value_dilutes (values : list string) (v : string)
    (legal_suffixes : list string) :
  blank v →
  ∃ p p' d d' c c',
    score_phone (values ++ [v]) = Ok p ∧ score_phone values = Ok p'
    ∧ score_date dateutil_parses (values ++ [v]) = Ok d
    ∧ score_date dateutil_parses values = Ok d'
    ∧ score_company (values ++ [v]) legal_suffixes = Ok c
    ∧ score_company values legal_suffixes = Ok c'
    ∧ (p <= p')%Q ∧ (d <= d')%Q ∧ (c <= c')%Q.
Proof.
  intros Hv. rewrite !score_phone_fraction, !(score_date_fraction dateutil_parses),
    !score_company_fraction.
  eexists _, _, _, _, _, _. repeat (split; [reflexivity|]).
  split; [|split]; apply fraction_dilutes.
  - by apply blank_not_phone.
  - by apply blank_not_date.
  - by apply blank_not_company.
Qed.

(** X16.  [main] of [predict.py] exits with a message that names the
    column and the file when the frame has no such column, and otherwise
    classifies the cells of a column of that name. *)
Theorem predict_main_column (input : string) (df : DataFrame) (column : string)
    (countries : gset string) (legal_suffixes : list string) :
  (column ∉ columns df →
   Predict.main dateutil_parses input df column countries legal_suffixes
   = Raise (Exn SystemExit
              ("Column '" +:+ column +:+ "' not found in " +:+ input)))
  ∧ (column ∈ columns df →
     ∃ cells,
       (column, cells) ∈ df
       ∧ Predict.main dateutil_parses input df column countries legal_suffixes
         = classify dateutil_parses cells countries legal_suffixes).
Proof.
  unfold Predict.main, columns.
  destruct (get_column df column) as [cells|] eqn:Hget.
  - assert (Hin : (column, cells) ∈ df).
    { induction df as [|[n c] rest IH]; [done|]. cbn [get_column] in Hget.
      destruct (String.eqb_spec n column) as [->|_].
      - injection Hget as ->. by left.
      - right. by apply IH. }
    split; [|eauto]. intros Hnot. destruct Hnot.
    apply list_elem_of_fmap. by exists (column, cells).
  - split; [done|]. intros Hin. exfalso.
    induction df as [|[n c] rest IH]; [by apply elem_of_nil in Hin|].
    cbn [get_column] in Hget. rewrite fmap_cons in Hin.
    destruct (String.eqb_spec n column) as [->|Hne]; [done|].
    apply elem_of_cons in Hin as [Heq|Hin]; [by rewrite Heq in Hne|].
    by apply IH.
Qed.

End Classifier.

(** [classify_blank_column] on a column of spaces. *)
Lemma classify_blank_column_witness :
  classify (λ _, true) [""; "  "] {[ "peru" ]} ["inc"] = Ok Other.
Proof.
  apply classify_blank_column. intros v Hv.
  rewrite !elem_of_cons, elem_of_nil in Hv. by destruct Hv as [->|[->|[]]].
Defined.

(** [classify_phone_column] on a column of two numbers. *)
Lemma classify_phone_column_witness :
  classify (λ _, false) ["+14155552671"; "020 7946 0958"] ∅ [] = Ok PhoneNumber.
Proof.
  apply classify_phone_column; [discriminate|]. intros v Hv.
  rewrite !elem_of_cons, elem_of_nil in Hv. by destruct Hv as [->|[->|[]]].
Defined.

(** [blank_value_dilutes] on a phone column that gets a blank cell. *)
Lemma blank_value_dilutes_witness :
  ∃ p p' d d' c c',
    score_phone (["5551234"] ++ [" "]) = Ok p ∧ score_phone ["5551234"] = Ok p'
    ∧ score_date (λ _, true) (["5551234"] ++ [" "]) = Ok d
    ∧ score_date (λ _, true) ["5551234"] = Ok d'
    ∧ score_company (["5551234"] ++ [" "]) ["inc"] = Ok c
    ∧ score_company ["5551234"] ["inc"] = Ok c'
    ∧ (p <= p')%Q ∧ (d <= d')%Q ∧ (c <= c')%Q.
Proof. apply blank_value_dilutes. reflexivity. Defined.

(** [predict_main_column] on a frame without the column asked for. *)
Lemma predict_main_column_witness :
  Predict.main (λ _, false) "data/phone.csv" [("number", ["5551234"])] "phone"
    ∅ []
  = Raise (Exn SystemExit "Column 'phone' not found in data/phone.csv").
Proof.
  apply (proj1 (predict_main_column (λ _, false) "data/phone.csv"
                  [("number", ["5551234"])] "phone" ∅ [])).
  by_eval.
Defined.

End ScoreFacts.

(* ================================================================== *)
(** * More on the parse operation *)
(* ================================================================== *)

Module ParseFacts.
Import Py Pandas Predict Parser PyFacts Spec Notions ScorerSpec ParseSpec.

Lemma columns_set_column df name cells :
  columns (set_column df name cells)
  = if bool_decide (name ∈ columns df) then columns df
    else columns df ++ [name].
Proof.
  case_bool_decide as Hin.
  - by apply set_column_taken.
  - rewrite set_column_fresh by done. unfold columns. by rewrite fmap_app.
Qed.

Lemma get_set_same df name cells :
  get_column (set_column df name cells) name = Some cells.
Proof.
  induction df as [|[n c] rest IH]; cbn [set_column get_column].
  - by rewrite String.eqb_refl.
  - destruct (String.eqb_spec n name) as [->|Hne]; cbn [get_column].
    + by rewrite String.eqb_refl.
    + by rewrite (proj2 (String.eqb_neq n name) Hne).
Qed.

Lemma get_set_other df name other cells :
  name ≠ other →
  get_column (set_column df name cells) other = get_column df other.
Proof.
  intros Hne. induction df as [|[n c] rest IH]; cbn [set_column get_column].
  - by rewrite (proj2 (String.eqb_neq name other) Hne).
  - destruct (String.eqb_spec n name) as [->|Hn]; cbn [get_column].
    + by rewrite (proj2 (String.eqb_neq name other) Hne).
    + by rewrite IH.
Qed.

(** The run of [main] on a frame that is not empty: the winner is the
    first candidate of the largest score, and the frame written results
    from two column assignments when that score is positive. *)
Lemma main_run df legal_suffixes :
  Pandas.empty df = false →
  ∃ col t q cells n1 n2,
    first_best (candidates_of df legal_suffixes) (col, t, q)
    ∧ get_column df col = Some cells
    ∧ derived_names t = [n1; n2] ∧ n1 ≠ n2
    ∧ main df legal_suffixes
      = Ok (Report
              (if Qgt_bool q 0 then
                 set_column
                   (set_column df n1 (derived_cells t legal_suffixes cells).*1)
                   n2 (derived_cells t legal_suffixes cells).*2
               else df) col t q).
Proof.
  intros Hne.
  assert (Hfirst : ∃ best,
             max_key snd (candidates_of df legal_suffixes) = Ok best
             ∧ first_best (candidates_of df legal_suffixes) best).
  { destruct df as [|[col values] rest]; [done|].
    cbn [candidates_of max_key]. eexists. split; [reflexivity|].
    match goal with |- context [max_loop snd ?b ?l] =>
      destruct (max_loop_first snd b l) as (l1 & l2 & Heq & Hlt & Hle)
    end.
    exists l1, l2. by rewrite Heq. }
  destruct Hfirst as ([[col t] q] & Hbest & Hfirst).
  assert (Hin : (col, t, q) ∈ candidates_of df legal_suffixes).
  { destruct Hfirst as (l1 & l2 & -> & _). apply elem_of_app. right. by left. }
  destruct (best_shape _ _ _ _ _ Hin) as (Ht & cells & Hcells).
  rewrite (main_unfold _ _ _ _ _ Hne Hbest), Hcells. cbv zeta.
  destruct Ht as [-> | ->].
  - exists col, PhoneNumber, q, cells, "Country", "Number".
    repeat (split; [done|]). rewrite bool_decide_eq_true_2 by done.
    cbn [andb derived_cells]. by destruct (Qgt_bool q 0).
  - exists col, CompanyName, q, cells, "Name", "Legal".
    repeat (split; [done|]).
    rewrite bool_decide_eq_false_2, bool_decide_eq_true_2 by done.
    cbn [andb derived_cells]. by destruct (Qgt_bool q 0).
Qed.

(** X17.  On a frame that is not empty [main] of [parser.py] runs to its
    end, and the column and type it reports are those of the first
    candidate of the largest score, the candidates being taken column by
    column, the phone score before the company score. *)
Theorem parse_main_first_best (df : DataFrame) (legal_suffixes : list string) :
  Pandas.empty df = false →
  ∃ r, main df legal_suffixes = Ok r
       ∧ first_best (candidates_of df legal_suffixes)
           (best_col r, best_type r, best_score r).
Proof.
  intros Hne.
  destruct (main_run df legal_suffixes Hne)
    as (col & t & q & cells & n1 & n2 & Hfirst & _ & _ & _ & Hmain).
  eexists. split; [exact Hmain|]. exact Hfirst.
Qed.

(** [parse_main_first_best] on a frame in which the phone score of one
    column and the company score of the next are both 1. *)
Lemma parse_main_first_best_witness :
  ∃ r, main [("phone", ["5551234"]); ("firm", ["Acme Inc"])] ["inc"] = Ok r
       ∧ first_best
           (candidates_of [("phone", ["5551234"]); ("firm", ["Acme Inc"])] ["inc"])
           (best_col r, best_type r, best_score r).
Proof. apply parse_main_first_best. reflexivity. Defined.

(** X18.  When the winning score is positive the columns of the frame
    written are those of the frame read, in order, followed by those of
    the two derived names that the frame read does not have; distinct
    column names stay distinct. *)
Theorem parse_main_columns (df : DataFrame) (legal_suffixes : list string) :
  Pandas.empty df = false →
  ∃ r, main df legal_suffixes = Ok r
       ∧ ((0 < best_score r)%Q →
          columns (out_df r)
          = columns df
              ++ filter (λ name, name ∉ columns df) (derived_names (best_type r))
          ∧ (NoDup (columns df) → NoDup (columns (out_df r)))).
Proof.
  intros Hne.
  destruct (main_run df legal_suffixes Hne)
    as (col & t & q & cells & n1 & n2 & _ & _ & Hnames & Hdiff & Hmain).
  eexists. split; [exact Hmain|]. cbn [best_score best_type out_df].
  intros Hpos. rewrite (proj2 (Qgt_bool_spec q 0) Hpos), Hnames.
  assert (Hcols :
    columns (set_column
               (set_column df n1 (derived_cells t legal_suffixes cells).*1)
               n2 (derived_cells t legal_suffixes cells).*2)
    = columns df ++ filter (λ name, name ∉ columns df) [n1; n2]).
  { rewrite !columns_set_column.
    destruct (decide (n1 ∈ columns df)) as [H1|H1];
      destruct (decide (n2 ∈ columns df)) as [H2|H2].
    - rewrite (bool_decide_eq_true_2 _ H1), (bool_decide_eq_true_2 _ H2).
      rewrite !filter_cons_False, filter_nil by auto. by rewrite app_nil_r.
    - rewrite (bool_decide_eq_true_2 _ H1), (bool_decide_eq_false_2 _ H2).
      by rewrite filter_cons_False, filter_cons_True, filter_nil by auto.
    - rewrite (bool_decide_eq_false_2 _ H1).
      rewrite bool_decide_eq_true_2 by (apply elem_of_app; by left).
      by rewrite filter_cons_True, filter_cons_False, filter_nil by auto.
    - rewrite (bool_decide_eq_false_2 _ H1).
      rewrite bool_decide_eq_false_2.
      + rewrite !filter_cons_True, filter_nil by auto. by rewrite <- app_assoc.
      + rewrite elem_of_app, list_elem_of_singleton. intros [?|?]; congruence. }
  split; [exact Hcols|]. intros Hnodup. rewrite Hcols.
  apply NoDup_app. split; [done|]. split.
  - intros x Hx [Hnot _]%list_elem_of_filter. done.
  - apply NoDup_filter. apply NoDup_cons. split.
    + rewrite list_elem_of_singleton. done.
    + apply NoDup_singleton.
Qed.

(** [parse_main_columns] on a frame that has a column named Number. *)
Lemma parse_main_columns_witness :
  ∃ r, main [("Number", ["+14155552671"]); ("note", ["x"])] [] = Ok r
       ∧ ((0 < best_score r)%Q →
          columns (out_df r)
          = columns [("Number", ["+14155552671"]); ("note", ["x"])]
              ++ filter (λ name, name ∉ columns [("Number", ["+14155552671"]);
                                                  ("note", ["x"])])
                   (derived_names (best_type r))
          ∧ (NoDup (columns [("Number", ["+14155552671"]); ("note", ["x"])]) →
             NoDup (columns (out_df r)))).
Proof. apply parse_main_columns. reflexivity. Defined.

(** X19.  When the winning score is positive, every column that does not
    bear a derived name has in the frame written the cells it had, and
    the two derived columns hold, cell by cell, the two parts that the
    parser of the winning type returns for the winning column. *)
Theorem parse_main_cells (df : DataFrame) (legal_suffixes : list string) :
  Pandas.empty df = false →
  ∃ r cells,
    main df legal_suffixes = Ok r
    ∧ get_column df (best_col r) = Some cells
    ∧ ((0 < best_score r)%Q →
       (∀ name, name ∉ derived_names (best_type r) →
                get_column (out_df r) name = get_column df name)
       ∧ ∃ n1 n2,
           derived_names (best_type r) = [n1; n2]
           ∧ get_column (out_df r) n1
             = Some (derived_cells (best_type r) legal_suffixes cells).*1
           ∧ get_column (out_df r) n2
             = Some (derived_cells (best_type r) legal_suffixes cells).*2).
Proof.
  intros Hne.
  destruct (main_run df legal_suffixes Hne)
    as (col & t & q & cells & n1 & n2 & _ & Hcells & Hnames & Hdiff & Hmain).
  eexists _, cells. split; [exact Hmain|]. cbn [best_score best_type best_col out_df].
  split; [exact Hcells|]. intros Hpos.
  rewrite (proj2 (Qgt_bool_spec q 0) Hpos), Hnames. split.
  - intros name Hname. rewrite !not_elem_of_cons in Hname.
    destruct Hname as (H1 & H2 & _). by rewrite !get_set_other by done.
  - exists n1, n2. split; [done|]. split.
    + by rewrite get_set_other, get_set_same by done.
    + by rewrite get_set_same.
Qed.

(** [parse_main_cells] on a frame of an id and a phone column. *)
Lemma parse_main_cells_witness :
  ∃ r cells,
    main [("id", ["7"]); ("phone", ["+442079460958"])] [] = Ok r
    ∧ get_column [("id", ["7"]); ("phone", ["+442079460958"])] (best_col r)
      = Some cells
    ∧ ((0 < best_score r)%Q →
       (∀ name, name ∉ derived_names (best_type r) →
                get_column (out_df r) name
                = get_column [("id", ["7"]); ("phone", ["+442079460958"])] name)
       ∧ ∃ n1 n2,
           derived_names (best_type r) = [n1; n2]
           ∧ get_column (out_df r) n1
             = Some (derived_cells (best_type r) [] cells).*1
           ∧ get_column (out_df r) n2
             = Some (derived_cells (best_type r) [] cells).*2).
Proof. apply parse_main_cells. reflexivity. Defined.

End ParseFacts.

(* ================================================================== *)
(** * More on the dispatcher *)
(* ================================================================== *)

Module ServerFacts.
Import Py Server PyFacts ServerNotions.

Section Dispatch.
Variable w : world.

Lemma get_dict items k dflt :
  get (PDict items) k dflt = Ok (default dflt (items_get items k)).
Proof. reflexivity. Qed.

Lemma get_raises v k dflt e :
  get v k dflt = Raise e → is_Exception (exn_kind e) = true.
Proof. destruct v; cbn; try done; by intros [= <-]. Qed.

Lemma under_base_raises v e :
  under_base w v = Raise e → is_Exception (exn_kind e) = true.
Proof. destruct v; cbn; try done; by intros [= <-]. Qed.

Lemma cmd_arg_raises v e :
  cmd_arg v = Raise e → is_Exception (exn_kind e) = true.
Proof. destruct v; cbn; try done; by intros [= <-]. Qed.

Lemma tool_column_prediction_raises args e :
  tool_column_prediction w args = Raise e → from_tool w e.
Proof.
  unfold tool_column_prediction, from_tool.
  destruct (get args "file_path" PNone) as [fp|e1] eqn:H1; cbn [mbind result_bind];
    [|intros [= <-]; left; by eapply get_raises].
  destruct (get args "column_name" PNone) as [cn|e2] eqn:H2; cbn [mbind result_bind];
    [|intros [= <-]; left; by eapply get_raises].
  destruct (negb (truthy fp) || negb (truthy cn)); [intros [= <-]; by left|].
  destruct (under_base w fp) as [abs|e3] eqn:H3; cbn [mbind result_bind];
    [|intros [= <-]; left; by eapply under_base_raises].
  destruct (cmd_arg cn) as [col|e4] eqn:H4; cbn [mbind result_bind];
    [|intros [= <-]; left; by eapply cmd_arg_raises].
  destruct (subprocess_run w _) as [[[rc out] err]|e5] eqn:H5;
    cbn [mbind result_bind]; [|intros [= <-]; right; eauto].
  destruct (negb (rc =? 0)%Z); [intros [= <-]; by left|done].
Qed.

Lemma tool_parse_file_raises args e :
  tool_parse_file w args = Raise e → from_tool w e.
Proof.
  unfold tool_parse_file, from_tool.
  destruct (get args "file_path" PNone) as [fp|e1] eqn:H1; cbn [mbind result_bind];
    [|intros [= <-]; left; by eapply get_raises].
  destruct (negb (truthy fp)); [intros [= <-]; by left|].
  destruct (under_base w fp) as [abs|e3] eqn:H3; cbn [mbind result_bind];
    [|intros [= <-]; left; by eapply under_base_raises].
  destruct (subprocess_run w _) as [[[rc out] err]|e5] eqn:H5;
    cbn [mbind result_bind]; [|intros [= <-]; right; eauto].
  destruct (negb (rc =? 0)%Z); [intros [= <-]; by left|done].
Qed.

Lemma tools_raise name tool_fn args e :
  items_get (TOOLS w) name = Some tool_fn →
  tool_fn args = Raise e → from_tool w e.
Proof.
  unfold TOOLS. cbn [items_get].
  destruct (String.eqb "list_files" name); [by intros [= <-]|].
  destruct (String.eqb "column_prediction" name);
    [intros [= <-]; apply tool_column_prediction_raises|].
  destruct (String.eqb "parse_file" name);
    [intros [= <-]; apply tool_parse_file_raises|done].
Qed.

Lemma items_get_nonempty {V} (items : list (string * V)) k v :
  items_get items k = Some v → negb (length items =? 0) = true.
Proof. by destruct items. Qed.

(** X20.  Every response that [handle_request] returns starts with the
    id of the request, [None] when the request has none, and its [ok]
    flag. *)
Theorem handle_request_echoes_id (items : list (string * pyval)) (resp : pyval) :
  handle_request w (PDict items) = Ok resp →
  ∃ ok rest,
    resp = PDict (("id", default PNone (items_get items "id"))
                    :: ("ok", PBool ok) :: rest).
Proof.
  unfold handle_request. rewrite !get_dict. cbn [mbind result_bind].
  destruct (eq_str _ "list_tools"); [intros [= <-]; by eexists _, _|].
  destruct (lookup_key (TOOLS w) _) as [[tool_fn|]|e]; cbn [mbind result_bind];
    [|intros [= <-]; by eexists _, _|done].
  destruct (tool_fn _) as [result|e]; [intros [= <-]; by eexists _, _|].
  destruct (is_Exception (exn_kind e)); [intros [= <-]; by eexists _, _|done].
Qed.

(** X21.  Only two kinds of exception leave [handle_request] on a JSON
    object: the [TypeError] of a tool name that is a list or a dict, and
    an exception outside [Exception] that [subprocess.run] raised. *)
Theorem handle_request_escapes (items : list (string * pyval)) (e : exn) :
  handle_request w (PDict items) = Raise e →
  (∃ tool,
      items_get items "tool" = Some tool
      ∧ (type_name tool = "list" ∨ type_name tool = "dict")
      ∧ e = Exn TypeError ("unhashable type: '" +:+ type_name tool +:+ "'"))
  ∨ (is_Exception (exn_kind e) = false ∧ ∃ cmd, subprocess_run w cmd = Raise e).
Proof.
  unfold handle_request. rewrite !get_dict. cbn [mbind result_bind].
  destruct (eq_str _ "list_tools"); [done|].
  destruct (items_get items "tool") as [tool|] eqn:Htool; cbn [default from_option id].
  - destruct tool; cbn [lookup_key mbind result_bind]; try done.
    + destruct (items_get (TOOLS w) s) as [tool_fn|] eqn:Hfn; [|done].
      destruct (tool_fn _) as [result|e'] eqn:Hrun; [done|].
      destruct (is_Exception (exn_kind e')) eqn:Hexc; [done|].
      intros [= <-]. right. split; [done|].
      destruct (tools_raise _ _ _ _ Hfn Hrun) as [H|H]; [congruence|done].
    + intros [= <-]. left. eexists. split; [done|]. split; [by left|done].
    + intros [= <-]. left. eexists. split; [done|]. split; [by right|done].
  - done.
Qed.

(** X22.  The loop answers the lines in order and stops at the first
    exception: on two inputs one after the other it prints what it
    prints on the first and, unless that run ended in an exception, what
    it prints on the second. *)
Theorem main_app (lines1 lines2 : list string) :
  main w (lines1 ++ lines2)
  = match (main w lines1).2 with
    | Some _ => main w lines1
    | None => ((main w lines1).1 ++ (main w lines2).1, (main w lines2).2)
    end.
Proof.
  induction lines1 as [|line rest IH].
  - cbn. by destruct (main w lines2).
  - cbn [app main]. destruct (is_empty (strip line)); [exact IH|].
    destruct (json_loads w (strip line)) as [req|e].
    + destruct (handle_request w req) as [resp|e]; [|done].
      rewrite IH. destruct (main w rest) as [printed [crash|]]; [done|].
      cbn. by destruct (main w lines2).
    + destruct (exn_kind e); try done.
      rewrite IH. destruct (main w rest) as [printed [crash|]]; [done|].
      cbn. by destruct (main w lines2).
Qed.

(** X23.  A run of the loop that ends without exception has printed one
    response for each line that is not blank. *)
Theorem main_one_response_per_line (lines : list string) :
  (main w lines).2 = None →
  length (main w lines).1
  = length (List.filter (λ line, negb (is_empty (strip line))) lines).
Proof.
  induction lines as [|line rest IH]; [done|]. cbn [main List.filter].
  destruct (is_empty (strip line)); cbn [negb]; [exact IH|].
  destruct (json_loads w (strip line)) as [req|e].
  - destruct (handle_request w req) as [resp|e]; [|done].
    destruct (main w rest) as [printed crash]. cbn in *. intros ->. by rewrite IH.
  - destruct (exn_kind e); try done.
    destruct (main w rest) as [printed crash]. cbn in *. intros ->. by rewrite IH.
Qed.

(** X24.  A [parse_file] request with a path: the answer is made from
    what the run of [parser.py] on that path returns, success with the
    stripped output as log when the status is 0, else an error that
    carries the stripped error output. *)
Theorem handle_request_parse_file (items args : list (string * pyval))
    (path out err : string) (rc : Z) :
  items_get items "tool" = Some (PStr "parse_file") →
  items_get items "args" = Some (PDict args) →
  items_get args "file_path" = Some (PStr path) →
  path ≠ "" →
  subprocess_run w [sys_executable w; base_path w "parser.py"; "--input";
                    base_path w path] = Ok (rc, out, err) →
  handle_request w (PDict items)
  = Ok (if (rc =? 0)%Z then
          ok_response (default PNone (items_get items "id"))
            (PDict [("input", PStr path); ("output", PStr "output.csv");
                    ("log", PStr (strip out))])
        else
          error_response (default PNone (items_get items "id"))
            ("parser.py failed: " +:+ strip err)).
Proof.
  intros Htool Hargs Hpath Hne Hrun.
  unfold handle_request. rewrite !get_dict. cbn [mbind result_bind].
  rewrite Htool, Hargs. cbn [default from_option id eq_str String.eqb Ascii.eqb
                              Bool.eqb lookup_key TOOLS items_get truthy].
  rewrite (items_get_nonempty _ _ _ Hpath). cbn [mbind result_bind].
  unfold tool_parse_file. rewrite get_dict, Hpath.
  cbn [default from_option id mbind result_bind truthy under_base].
  assert (is_empty path = false) as -> by (by destruct path).
  cbn [negb]. rewrite Hrun. cbn [mbind result_bind].
  by destruct (rc =? 0)%Z.
Qed.

(** X25.  A [column_prediction] request whose arguments lack the file
    path or the column name is answered with an error; no subprocess is
    run. *)
Theorem handle_request_prediction_args (items args : list (string * pyval)) :
  items_get items "tool" = Some (PStr "column_prediction") →
  default (PDict []) (items_get items "args") = PDict args →
  items_get args "file_path" = None ∨ items_get args "column_name" = None →
  handle_request w (PDict items)
  = Ok (error_response (default PNone (items_get items "id"))
          "Both 'file_path' and 'column_name' are required.").
Proof.
  intros Htool Hargs Hmiss.
  unfold handle_request. rewrite !get_dict. cbn [mbind result_bind].
  rewrite Htool, Hargs. cbn [default from_option id eq_str String.eqb Ascii.eqb
                              Bool.eqb lookup_key TOOLS items_get].
  cbn [mbind result_bind].
  assert (Htool_raises : ∀ d,
             d = PDict args ∨ d = PDict [] →
             tool_column_prediction w d
             = Raise (Exn ValueError
                        "Both 'file_path' and 'column_name' are required.")).
  { intros d [-> | ->]; unfold tool_column_prediction; rewrite !get_dict;
      cbn [mbind result_bind]; [|done].
    destruct Hmiss as [-> | ->]; cbn [default from_option id truthy negb orb];
      [done|]. by rewrite orb_true_r. }
  rewrite Htool_raises by (destruct (truthy (PDict args)); auto). done.
Qed.

End Dispatch.

(** [handle_request_echoes_id] on a [list_tools] request. *)
Lemma handle_request_echoes_id_witness :
  ∃ ok rest,
    ok_response (PInt 2)
      (PDict [("tools", PList [PStr "list_files"; PStr "column_prediction";
                               PStr "parse_file"])])
    = PDict (("id", PInt 2) :: ("ok", PBool ok) :: rest).
Proof.
  apply (handle_request_echoes_id ServerSamples.sample_world
           [("id", PInt 2); ("tool", PStr "list_tools")]).
  reflexivity.
Defined.

(** [handle_request_escapes] when the run of [parser.py] is
    interrupted. *)
Lemma handle_request_escapes_witness :
  (∃ tool,
      items_get parse_request "tool" = Some tool
      ∧ (type_name tool = "list" ∨ type_name tool = "dict")
      ∧ Exn KeyboardInterrupt ""
        = Exn TypeError ("unhashable type: '" +:+ type_name tool +:+ "'"))
  ∨ (is_Exception KeyboardInterrupt = false
     ∧ ∃ cmd, subprocess_run interrupted_world cmd = Raise (Exn KeyboardInterrupt "")).
Proof.
  apply (handle_request_escapes interrupted_world parse_request
           (Exn KeyboardInterrupt "")).
  reflexivity.
Defined.

(** [main_one_response_per_line] on two requests around a blank line. *)
Lemma main_one_response_per_line_witness :
  length (main ServerSamples.sample_world
            [ServerSamples.list_tools_line; "  "; ServerSamples.list_tools_line]).1
  = 2.
Proof.
  apply (main_one_response_per_line ServerSamples.sample_world
           [ServerSamples.list_tools_line; "  "; ServerSamples.list_tools_line]).
  reflexivity.
Defined.

(** [handle_request_parse_file] in the world of the samples, where the
    subprocess exits with status 0. *)
Lemma handle_request_parse_file_witness :
  handle_request ServerSamples.sample_world (PDict parse_request)
  = Ok (ok_response (PInt 3)
          (PDict [("input", PStr "data/test.csv"); ("output", PStr "output.csv");
                  ("log", PStr "Other")])).
Proof.
  apply (handle_request_parse_file ServerSamples.sample_world parse_request
           [("file_path", PStr "data/test.csv")] "data/test.csv" "Other" "" 0);
    try reflexivity.
  discriminate.
Defined.

(** [handle_request_prediction_args] on a request without arguments. *)
Lemma handle_request_prediction_args_witness :
  handle_request interrupted_world
    (PDict [("id", PInt 4); ("tool", PStr "column_prediction")])
  = Ok (error_response (PInt 4)
          "Both 'file_path' and 'column_name' are required.").
Proof.
  apply (handle_request_prediction_args interrupted_world
           [("id", PInt 4); ("tool", PStr "column_prediction")] []).
  - reflexivity.
  - reflexivity.
  - by left.
Defined.

End ServerFacts.
